(** * tasks.py: fleet-operation tasks of the doctor cluster

    A shallow embedding of [tasks.py].

    - Python [str] values are [string]s (the UTF-8 bytes of the text), Python
      lists are [list]s, the [meta] dictionary of a [DeployHost] and the
      table [MANUFACTURERS] are [gmap]s.
    - The commands that leave the process ([nix], [rsync], [nixos-rebuild],
      [sops], [ipmitool], ...) are not run: an oracle gives, for the history
      so far and the next command, its exit status, its output and what it
      does to the local file system.  The theorems hold for every oracle.
    - A task is a computation on a [world] that may raise.  The work that a
      dispatch runs for one host is a tree of commands, so that the work of
      several hosts can be interleaved; a schedule tells which host takes
      the next step, and the theorems hold for every schedule.  A command is
      one step: it has ended when the next command starts.
    - deploykit and invoke are used, not defined, by [tasks.py]; what is
      taken from them is said where it is taken: the default [check=True]
      of deploykit, [UnexpectedExit] of invoke, the results of a dispatch in
      the order of the hosts. *)

From Stdlib Require Import ZArith Ascii String List Permutation Sorted.
From stdpp Require Import base option list strings pretty gmap.
Import ListNotations.

Local Open Scope string_scope.
Local Open Scope list_scope.
Local Open Scope nat_scope.

(** ** Python string primitives *)

Module Py.

(** Concatenation of two [str] values. *)
Notation "s +++ t" := (String.append s t)
  (at level 60, right associativity).

(** [needle in s]. *)
Fixpoint contains (needle s : string) : bool :=
  String.prefix needle s ||
  match s with
  | EmptyString => false
  | String _ s' => contains needle s'
  end.

(** [s.split(sep)] for a non-empty [sep] (every separator in [tasks.py] is a
    non-empty literal).  The text is scanned from the left; [skip] counts the
    characters of a matched separator that are still to be dropped and [cur]
    is the field read so far. *)
Fixpoint split_aux (sep : string) (skip : nat) (cur s : string) : list string :=
  match s with
  | EmptyString => [cur]
  | String c s' =>
      match skip with
      | S k => split_aux sep k cur s'
      | O =>
          if String.prefix sep s
          then cur :: split_aux sep (String.length sep - 1) EmptyString s'
          else split_aux sep 0 (cur +++ String c EmptyString) s'
      end
  end.

Definition split (sep s : string) : list string :=
  split_aux sep 0 EmptyString s.

(** [sep.join(l)]. *)
Definition join (sep : string) (l : list string) : string :=
  String.concat sep l.

(** [s.replace(old, new)] for a non-empty [old]: the occurrences are
    replaced from the left and do not overlap. *)
Fixpoint replace_aux (old new : string) (skip : nat) (s : string) : string :=
  match s with
  | EmptyString => EmptyString
  | String c s' =>
      match skip with
      | S k => replace_aux old new k s'
      | O =>
          if String.prefix old s
          then new +++ replace_aux old new (String.length old - 1) s'
          else String c (replace_aux old new 0 s')
      end
  end.

Definition replace (old new s : string) : string := replace_aux old new 0 s.

(** White space as [str.strip] sees it, on the ASCII range: TAB, LF, VT, FF,
    CR, FS, GS, RS, US and the space.  The white space beyond ASCII (U+0085,
    U+00A0, ...) is several bytes long in this byte model and is left alone. *)
Definition is_space (c : ascii) : bool :=
  let n := nat_of_ascii c in
  ((9 <=? n) && (n <=? 13)) || ((28 <=? n) && (n <=? 32)).

Fixpoint lstrip (s : string) : string :=
  match s with
  | EmptyString => EmptyString
  | String c s' => if is_space c then lstrip s' else s
  end.

Fixpoint rstrip (s : string) : string :=
  match s with
  | EmptyString => EmptyString
  | String c s' =>
      match rstrip s' with
      | EmptyString => if is_space c then EmptyString else String c EmptyString
      | r => String c r
      end
  end.

(** [s.strip()]. *)
Definition strip (s : string) : string := rstrip (lstrip s).

Definition cr : ascii := "013"%char.
Definition lf : ascii := "010"%char.

(** Line boundaries of [str.splitlines] that are one ASCII character long:
    LF, VT, FF, CR, FS, GS, RS. *)
Definition is_linebreak (c : ascii) : bool :=
  let n := nat_of_ascii c in
  ((10 <=? n) && (n <=? 13)) || ((28 <=? n) && (n <=? 30)).

(** Line boundaries that are longer than one byte, with the number of bytes
    that follow the first one: CR LF, and the UTF-8 encodings of U+0085,
    U+2028 and U+2029. *)
Definition long_linebreak (s : string) : option nat :=
  if String.prefix (String cr (String lf EmptyString)) s then Some 1
  else if String.prefix (String "194"%char (String "133"%char EmptyString)) s
  then Some 1
  else if String.prefix
            (String "226"%char (String "128"%char (String "168"%char EmptyString))) s
  then Some 2
  else if String.prefix
            (String "226"%char (String "128"%char (String "169"%char EmptyString))) s
  then Some 2
  else None.

(** [s.splitlines()]: the boundaries are dropped, and a text that ends in a
    boundary has no empty last line. *)
Fixpoint splitlines_aux (skip : nat) (cur s : string) : list string :=
  match s with
  | EmptyString => match cur with EmptyString => [] | _ => [cur] end
  | String c s' =>
      match skip with
      | S k => splitlines_aux k cur s'
      | O =>
          match long_linebreak s with
          | Some k => cur :: splitlines_aux k EmptyString s'
          | None =>
              if is_linebreak c then cur :: splitlines_aux 0 EmptyString s'
              else splitlines_aux 0 (cur +++ String c EmptyString) s'
          end
      end
  end.

Definition splitlines (s : string) : list string :=
  splitlines_aux 0 EmptyString s.

Definition digit (c : ascii) : option Z :=
  let n := nat_of_ascii c in
  if (48 <=? n) && (n <=? 57) then Some (Z.of_nat (n - 48)) else None.

(** The digits of a decimal literal: single underscores may stand between
    two digits.  [acc] is [None] until a digit was read and [us] tells that
    the last character was an underscore. *)
Fixpoint int_digits (acc : option Z) (us : bool) (s : string) : option Z :=
  match s with
  | EmptyString => if us then None else acc
  | String c s' =>
      match digit c with
      | Some d => int_digits (Some (10 * default 0 acc + d)%Z) false s'
      | None =>
          if Ascii.eqb c "_" && negb us && bool_decide (is_Some acc)
          then int_digits acc true s'
          else None
      end
  end.

(** [int(s)] on ASCII text; [None] stands for [ValueError]. *)
Definition int (s : string) : option Z :=
  match strip s with
  | String "+" r => int_digits None false r
  | String "-" r => Z.opp <$> int_digits None false r
  | t => int_digits None false t
  end.

(** [repr] of a [str] without quotes, backslashes or control characters, and
    of a list of them, as an f-string renders it. *)
Definition repr_str (s : string) : string := "'" +++ s +++ "'".

Definition repr_list (l : list string) : string :=
  "[" +++ join ", " (List.map repr_str l) +++ "]".

(** [l[i]]: an index past the end raises [IndexError]; [None] stands for
    it. *)
Definition index {A} (l : list A) (i : nat) : option A := nth_error l i.

(** The double quote. *)
Definition dq : string := String "034"%char EmptyString.

(** The line feed, written [\n] in Python. *)
Definition nl : string := String lf EmptyString.

End Py.

Import Py.

(** ** Commands, exceptions and the world *)

(** What a finished command leaves behind ([subprocess.CompletedProcess],
    deploykit's and invoke's results): the exit status and the captured
    standard output. *)
Record CompletedProcess := { returncode : Z; stdout : string }.

(** A command that ends with the status [rc] and prints nothing. *)
Definition exit_status (rc : Z) : CompletedProcess :=
  {| returncode := rc; stdout := EmptyString |}.

(** A command is one shell line or an argument vector. *)
Inductive command :=
  | Shell (line : string)
  | Argv (argv : list string).

(** The calls that leave the Python process. *)
Inductive event :=
  | HostRun (host : string) (cmd : command) (check : bool)
      (* DeployHost.run *)
  | HostRunLocal (host : string) (cmd : command) (check : bool)
      (* DeployHost.run_local *)
  | SubprocessRun (argv : list string) (check : bool)
      (* subprocess.run *)
  | ContextRun (line : string) (warn : bool)
      (* invoke's Context.run *)
  | OsSystem (line : string).
      (* os.system *)

Inductive exn :=
  | CalledProcessError (rc : Z)
  | UnexpectedExit (rc : Z)
  | IndexError
  | ValueError
  | KeyError
  | FileExistsError (path : string)
  | FileNotFoundError (path : string)
  | HostFailure (hosts : list string).
      (* deploykit: some host of a checked dispatch failed *)

Inductive result (A : Type) :=
  | Ok (a : A)
  | Raise (e : exn).
Arguments Ok {A} a.
Arguments Raise {A} e.

(** A command that was issued, with its outcome. *)
Definition entry : Type := event * CompletedProcess.

(** The state a task runs in: the commands issued so far and how they ended,
    the local file system (path to content; a directory holds the empty
    text), the working directory as the list of its components, innermost
    first, and the lines printed so far. *)
Record world := {
  history : list entry;
  fs : gmap string string;
  cwd : list string;
  console : list string
}.

Definition set_fs (f : gmap string string -> gmap string string) (w : world) : world :=
  {| history := history w; fs := f (fs w); cwd := cwd w; console := console w |}.
Definition set_cwd (f : list string -> list string) (w : world) : world :=
  {| history := history w; fs := fs w; cwd := f (cwd w); console := console w |}.
Definition set_console (f : list string -> list string) (w : world) : world :=
  {| history := history w; fs := fs w; cwd := cwd w; console := f (console w) |}.

(** The environment: for the commands issued so far, the file system as it
    is and the next command, the outcome of that command and the file system
    it leaves. *)
Definition oracle : Type :=
  list entry -> gmap string string -> event ->
  CompletedProcess * gmap string string.

(** The answer of the environment to a command, and the world after it. *)
Definition answer (o : oracle) (e : event) (w : world) : CompletedProcess * world :=
  let '(p, fs') := o (history w) (fs w) e in
  (p, {| history := history w ++ [(e, p)]; fs := fs';
         cwd := cwd w; console := console w |}).

(** Computations that read and change the world and may raise. *)
Definition M (A : Type) : Type := world -> result A * world.

Definition ret {A} (a : A) : M A := fun w => (Ok a, w).

Definition raise {A} (e : exn) : M A := fun w => (Raise e, w).

Definition bind {A B} (m : M A) (k : A -> M B) : M B :=
  fun w =>
    match m w with
    | (Ok a, w') => k a w'
    | (Raise e, w') => (Raise e, w')
    end.

Notation "x <- m ;; k" := (bind m (fun x => k))
  (at level 100, m at next level, right associativity).
Notation "m ;;; k" := (bind m (fun _ => k))
  (at level 100, right associativity).

(** An optional value that raises [e] when it is missing. *)
Definition or_raise {A} (e : exn) (o : option A) : M A :=
  match o with
  | Some a => ret a
  | None => raise e
  end.

(** [for x in l: body(x)], with the loop variables threaded as [acc]. *)
Fixpoint for_each {A B} (l : list A) (acc : B) (body : B -> A -> M B) : M B :=
  match l with
  | [] => ret acc
  | x :: l' => acc' <- body acc x ;; for_each l' acc' body
  end.

(** Issue a command: it is logged with the outcome the oracle gives it. *)
Definition exec (o : oracle) (e : event) : M CompletedProcess :=
  fun w => let '(p, w') := answer o e w in (Ok p, w').

(** [print(line)]. *)
Definition print (line : string) : M unit :=
  fun w => (Ok tt, set_console (fun c => c ++ [line]) w).

(** The world a task starts in. *)
Definition initial_world (files : gmap string string) (dir : list string) : world :=
  {| history := []; fs := files; cwd := dir; console := [] |}.

(** *** deploykit and invoke *)

(** A host of a deploy group (deploykit's [DeployHost]). *)
Record DeployHost := {
  host : string;
  user : option string;
  meta : gmap string string
}.

(** [DeployHost(h, user="root")]. *)
Definition root_host (h : string) : DeployHost :=
  {| host := h; user := Some "root"; meta := ∅ |}.

(** deploykit checks the exit status unless told otherwise: [check]
    defaults to [True] in [DeployHost.run], [DeployHost.run_local] and
    [DeployGroup.run_function]. *)
Definition default_check : bool := true.

Definition checked (check : bool) (p : CompletedProcess) : M CompletedProcess :=
  if check && negb (returncode p =? 0)%Z
  then raise (CalledProcessError (returncode p))
  else ret p.

(** [subprocess.run(argv, check=check)]. *)
Definition subprocess_run (o : oracle) (argv : list string) (check : bool)
  : M CompletedProcess :=
  p <- exec o (SubprocessRun argv check) ;; checked check p.

(** [c.run(line, warn=warn)]: invoke raises [UnexpectedExit] on a non-zero
    exit status unless [warn] is set. *)
Definition c_run (o : oracle) (line : string) (warn : bool) : M CompletedProcess :=
  p <- exec o (ContextRun line warn) ;;
  if negb warn && negb (returncode p =? 0)%Z
  then raise (UnexpectedExit (returncode p))
  else ret p.

(** [os.system(line)]: the exit status is the result, nothing is raised. *)
Definition os_system (o : oracle) (line : string) : M Z :=
  p <- exec o (OsSystem line) ;; ret (returncode p).

(** The outcome of one host's work in a dispatch (deploykit's [HostResult]). *)
Record HostResult (A : Type) := {
  hr_host : DeployHost;
  hr_outcome : result A
}.
Arguments hr_host {A} _.
Arguments hr_outcome {A} _.

(** [r.result]: the value the work returned; the exception it raised is
    raised again. *)
Definition hr_result {A} (r : HostResult A) : M A :=
  match hr_outcome r with
  | Ok a => ret a
  | Raise e => raise e
  end.

(** ** Work items and their dispatch *)

(** The work a dispatch runs for one host: it issues commands one after the
    other, computes on their answers and returns or raises.  The tree keeps
    the points where the work waits for a command, so that the work of
    several hosts can be interleaved. *)
Inductive prog (A : Type) :=
  | Done (a : A)
  | Fail (e : exn)
  | Call (e : event) (k : CompletedProcess -> prog A).
Arguments Done {A} a.
Arguments Fail {A} e.
Arguments Call {A} e k.

Fixpoint pbind {A B} (m : prog A) (f : A -> prog B) : prog B :=
  match m with
  | Done a => f a
  | Fail e => Fail e
  | Call e k => Call e (fun p => pbind (k p) f)
  end.

Declare Scope prog_scope.
Delimit Scope prog_scope with prog.
Bind Scope prog_scope with prog.

Notation "x <- m ;; k" := (pbind m (fun x => k))
  (at level 100, m at next level, right associativity) : prog_scope.
Notation "m ;;; k" := (pbind m (fun _ => k))
  (at level 100, right associativity) : prog_scope.

Module Host.

Definition checked (check : bool) (p : CompletedProcess) : prog CompletedProcess :=
  if check && negb (returncode p =? 0)%Z
  then Fail (CalledProcessError (returncode p))
  else Done p.

(** [h.run(cmd, check=check)]: the command runs on the host. *)
Definition run (h : DeployHost) (cmd : command) (check : bool)
  : prog CompletedProcess :=
  Call (HostRun (host h) cmd check) (checked check).

(** [h.run_local(cmd, check=check)]: the command runs on the local machine
    on behalf of the host. *)
Definition run_local (h : DeployHost) (cmd : command) (check : bool)
  : prog CompletedProcess :=
  Call (HostRunLocal (host h) cmd check) (checked check).

Definition or_fail {A} (e : exn) (o : option A) : prog A :=
  match o with
  | Some a => Done a
  | None => Fail e
  end.

(** [for x in l: body(x)], with the loop variables threaded as [acc]. *)
Fixpoint for_each {A B} (l : list A) (acc : B) (body : B -> A -> prog B) : prog B :=
  match l with
  | [] => Done acc
  | x :: l' => (acc' <- body acc x ;; for_each l' acc' body)%prog
  end.

End Host.

(** One work item given the answers that its commands get, in their order:
    the commands it issues with their outcomes, and how it ends; [None] when
    it still waits for an answer. *)
Fixpoint feed {A} (t : prog A) (answers : list CompletedProcess)
  : list entry * option (result A) :=
  match t with
  | Done a => ([], Some (Ok a))
  | Fail e => ([], Some (Raise e))
  | Call e k =>
      match answers with
      | [] => ([], None)
      | p :: answers' =>
          let '(tr, r) := feed (k p) answers' in ((e, p) :: tr, r)
      end
  end.

(** One work item run to its end, on its own. *)
Fixpoint finish {A} (o : oracle) (t : prog A) (w : world) : result A * world :=
  match t with
  | Done a => (Ok a, w)
  | Fail e => (Raise e, w)
  | Call e k => let '(p, w') := answer o e w in finish o (k p) w'
  end.

(** The [i]-th work item of the pool takes its next step: its pending
    command runs.  An item that is over stays as it is. *)
Definition step_thread {A} (o : oracle) (i : nat) (pool : list (prog A)) (w : world)
  : list (prog A) * world :=
  match pool !! i with
  | Some (Call e k) => let '(p, w') := answer o e w in (<[i := k p]> pool, w')
  | _ => (pool, w)
  end.

(** The pool runs along a schedule: the list of the items that take the next
    steps, in that order. *)
Fixpoint run_sched {A} (o : oracle) (sched : list nat) (pool : list (prog A)) (w : world)
  : list (prog A) * world :=
  match sched with
  | [] => (pool, w)
  | i :: sched' => let '(pool', w') := step_thread o i pool w in run_sched o sched' pool' w'
  end.

(** The dispatch waits for every item in turn; what an item has left to do
    when the schedule ends, it does then. *)
Fixpoint join_all {A} (o : oracle) (pool : list (prog A)) (w : world)
  : list (result A) * world :=
  match pool with
  | [] => ([], w)
  | t :: pool' =>
      let '(r, w') := finish o t w in
      let '(rs, w'') := join_all o pool' w' in
      (r :: rs, w'')
  end.

Definition is_raise {A} (r : result A) : bool :=
  match r with
  | Ok _ => false
  | Raise _ => true
  end.

(** A dispatch of a pool of work items: they run interleaved as [sched]
    tells, then every item is waited for. *)
Definition dispatch {A} (o : oracle) (sched : list nat) (pool : list (prog A)) (w : world)
  : list (result A) * world :=
  let '(pool', w') := run_sched o sched pool w in
  join_all o pool' w'.

(** [DeployGroup(hosts).run_function(func, check=check)]: one work item per
    host, all started together; one result per host, in the order of the
    hosts.  A checked dispatch raises when the work of some host raised. *)
Definition run_function {A} (o : oracle) (sched : list nat)
    (func : DeployHost -> prog A) (hosts : list DeployHost) (check : bool)
  : M (list (HostResult A)) :=
  fun w =>
    let '(outcomes, w') := dispatch o sched (List.map func hosts) w in
    let results :=
      zip_with (fun h r => {| hr_host := h; hr_outcome := r |}) hosts outcomes in
    let failed := List.filter (fun r => is_raise (hr_outcome r)) results in
    match failed with
    | _ :: _ =>
        if check
        then (Raise (HostFailure (List.map (fun r => host (hr_host r)) failed)), w')
        else (Ok results, w')
    | [] => (Ok results, w')
    end.

(** Every command that a work item can issue satisfies [P]. *)
Fixpoint calls_in {A} (P : event -> Prop) (t : prog A) : Prop :=
  match t with
  | Call e k => P e /\ forall p, calls_in P (k p)
  | _ => True
  end.

(** The work item [t0], given the answers in [tr], has issued the calls of
    [tr] and goes on as [t]. *)
Definition fed {A} (t0 t : prog A) (tr : list entry) : Prop :=
  forall answers tr' r,
    feed t answers = (tr', r) ->
    feed t0 (List.map snd tr ++ answers) = (tr ++ tr', r).

(** The pool [pool0] has become [pool] while the history grew by [H]: what
    each item has issued is in [H], in its order. *)
Definition pool_inv {A} (P : event -> Prop) (H : list entry)
    (pool0 pool : list (prog A)) : Prop :=
  Forall2
    (fun t0 t => calls_in P t /\ exists tr, tr `sublist_of` H /\ fed t0 t tr)
    pool0 pool.

(** ** The host tables *)

Definition HOSTS : list string := [
  "astrid.dse.in.tum.de";
  "dan.dse.in.tum.de";
  "mickey.dse.in.tum.de";
  "bill.dse.in.tum.de";
  "nardole.dse.in.tum.de";
  "yasmin.dse.in.tum.de";
  "graham.dse.in.tum.de";
  "ryan.dse.in.tum.de";
  "christina.dse.in.tum.de";
  "jackson.dse.in.tum.de";
  "adelaide.dse.in.tum.de";
  "wilfred.dse.in.tum.de";
  "river.dse.in.tum.de";
  "jack.dse.in.tum.de";
  "clara.dse.in.tum.de";
  "amy.dse.in.tum.de";
  "rose.dse.in.tum.de"
].

(** Used for the different IPMI power readings. *)
Definition MANUFACTURERS : gmap string (list string) :=
  list_to_map [
    ("dell", [
      "ryan.dse.in.tum.de";
      "graham.dse.in.tum.de";
      "astrid.dse.in.tum.de";
      "dan.dse.in.tum.de";
      "mickey.dse.in.tum.de"
    ]);
    ("supermicro", [
      "jackson.dse.in.tum.de";
      "christina.dse.in.tum.de";
      "adelaide.dse.in.tum.de";
      "wilfred.dse.in.tum.de";
      "river.dse.in.tum.de";
      "jack.dse.in.tum.de";
      "clara.dse.in.tum.de";
      "amy.dse.in.tum.de";
      "rose.dse.in.tum.de"
    ]);
    ("supermicro_broken", [
      "bill.dse.in.tum.de";
      "nardole.dse.in.tum.de"
    ])
  ].

(** [get_hosts]. *)
Definition get_hosts (hosts : string) : list DeployHost :=
  List.map root_host (split "," hosts).

(** ** [deploy_nixos] *)

(** Truth of an optional text: [None] and the empty text are false. *)
Definition truthy (o : option string) : option string :=
  match o with
  | Some EmptyString => None
  | _ => o
  end.

(** The argument vector of the activation command of a host. *)
Definition switch_cmd (h : DeployHost) : list string :=
  let flake_path := default "/etc/nixos" (meta h !! "flake_path") in
  let flake_path :=
    match truthy (meta h !! "flake_attr") with
    | Some flake_attr => flake_path +++ "#" +++ flake_attr
    | None => flake_path
    end in
  let cmd := [
    "nixos-rebuild";
    "switch";
    "--fast";
    "--option";
    "accept-flake-config";
    "true";
    "--flake";
    flake_path;
    "--option";
    "keep-going";
    "true"
  ] in
  match truthy (meta h !! "target_host") with
  | Some target_host =>
      let target_host :=
        match truthy (meta h !! "target_user") with
        | Some target_user => target_user +++ "@" +++ target_host
        | None => target_host
        end in
      cmd ++ ["--target-host"; target_host]
  | None => cmd
  end.

(** The line of the file sync to a host. *)
Definition rsync_line (path : string) (h : DeployHost) : string :=
  let target := default "root" (truthy (user h)) +++ "@" +++ host h in
  let flake_path := default "/etc/nixos" (meta h !! "flake_path") in
  "rsync --checksum -vaF --delete -e ssh " +++ path +++ "/ " +++ target +++ ":"
    +++ flake_path.

(** The file sync to a host, as a call. *)
Definition sync_call (path : string) (h : DeployHost) : event :=
  HostRunLocal (host h) (Shell (rsync_line path h)) default_check.

(** The activation command on a host, as a call. *)
Definition switch_call (h : DeployHost) (check : bool) : event :=
  HostRun (host h) (Argv (switch_cmd h)) check.

(** [deploy_nixos.deploy]: the work for one host. *)
Definition deploy (path : string) (h : DeployHost) : prog unit :=
  (_ <- Host.run_local h (Shell (rsync_line path h)) default_check ;;
   let cmd := Argv (switch_cmd h) in
   ret <- Host.run h cmd false ;;
   (* re-retry switch if the first time fails *)
   if negb (returncode ret =? 0)%Z
   then _ <- Host.run h cmd default_check ;; Done tt
   else Done tt)%prog.

(** The runs of [deploy] for a host: the calls with their outcomes, and how
    the work ends. *)
Inductive deploy_run (path : string) (h : DeployHost)
  : list entry -> result unit -> Prop :=
  | sync_failed p0 :
      returncode p0 <> 0%Z ->
      deploy_run path h [(sync_call path h, p0)]
        (Raise (CalledProcessError (returncode p0)))
  | first_ok p0 p1 :
      returncode p0 = 0%Z -> returncode p1 = 0%Z ->
      deploy_run path h [(sync_call path h, p0); (switch_call h false, p1)] (Ok tt)
  | retry_ok p0 p1 p2 :
      returncode p0 = 0%Z -> returncode p1 <> 0%Z -> returncode p2 = 0%Z ->
      deploy_run path h
        [(sync_call path h, p0); (switch_call h false, p1); (switch_call h true, p2)]
        (Ok tt)
  | retry_failed p0 p1 p2 :
      returncode p0 = 0%Z -> returncode p1 <> 0%Z -> returncode p2 <> 0%Z ->
      deploy_run path h
        [(sync_call path h, p0); (switch_call h false, p1); (switch_call h true, p2)]
        (Raise (CalledProcessError (returncode p2))).


(** The call that resolves the flake. *)
Definition metadata_call : event :=
  SubprocessRun ["nix"; "flake"; "metadata"; "--json"] true.



(** An environment in which the first attempt of the activation on the host
    [name] fails and every other command succeeds. *)
Definition first_attempt_fails (name : string) : oracle :=
  fun _ files e =>
    match e with
    | HostRun h _ false =>
        if String.eqb h name then (exit_status 1, files) else (exit_status 0, files)
    | _ => (exit_status 0, files)
    end.



Section Deploy.

(** [json.loads(text)["path"]], or the exception raised on the way. *)
Variable json_path : string -> result string.

(** [deploy_nixos]: deploy to all hosts in parallel. *)
Definition deploy_nixos (o : oracle) (sched : list nat) (hosts : list DeployHost)
  : M unit :=
  res <- subprocess_run o ["nix"; "flake"; "metadata"; "--json"] true ;;
  path <- (fun w => (json_path (stdout res), w)) ;;
  _ <- run_function o sched (deploy path) hosts default_check ;;
  ret tt.

End Deploy.

(** ** [document_cards] *)

(** [l.pop()]: the last element leaves the list; [None] stands for the
    [IndexError] of an empty list. *)
Definition pop {A} (l : list A) : option (A * list A) :=
  match rev l with
  | [] => None
  | x :: r => Some (x, rev r)
  end.

(** [document_cards.get_slots]: the description of the device in every slot
    that [dmidecode] lists. *)
Definition get_slots (h : DeployHost) : prog (list string) :=
  ((* get pci ids in the same order as inxi *)
   dmi_slots <- Host.run h
     (Shell ("nix-shell -p 'dmidecode' --run " +++ dq +++ "sudo dmidecode -t slot" +++ dq))
     false ;;
   (* fails on our m1 aarch64 linux machine *)
   if negb (returncode dmi_slots =? 0)%Z then Done []
   else
     Host.for_each (tail (split "System Slot Information" (stdout dmi_slots))) []
       (fun ret slot =>
          description <- Host.for_each (splitlines slot) EmptyString
            (fun description line =>
               if contains "Bus Address" line then
                 field <- Host.or_fail IndexError (index (split ": " line) 1) ;;
                 let pciid := strip field in
                 (* get slot descriptions *)
                 description <- Host.run h
                   (Shell ("nix-shell -p 'pciutils' --run " +++ dq +++ "lspci -m -s "
                             +++ pciid +++ dq))
                   default_check ;;
                 let description := strip (stdout description) in
                 let description := replace (" " +++ dq) ", " description in
                 let description := replace dq "" description in
                 Done description
               else Done description) ;;
          if String.length description =? 0
          then Done (ret ++ ["No device/PCI ID."])
          else Done (ret ++ [description])))%prog.

(** Is it a line of a slot, and the line as it is printed. *)
Definition mark_line (line : string) : string * bool :=
  let is_device_line := false in
  let '(line, is_device_line) :=
    if contains "status: Available" line
    then ("- ✅" +++ line, true) else (line, is_device_line) in
  let '(line, is_device_line) :=
    if contains "status: In Use" line
    then ("- ❌" +++ line, true) else (line, is_device_line) in
  (line, is_device_line).

(** The body of the loop of [doc_cards] over the lines of [inxi]; the loop
    variables are the text so far and the descriptions not yet used. *)
Definition doc_line (acc : string * list string) (line : string)
  : prog (string * list string) :=
  let '(result, descriptions) := acc in
  let '(line, is_device_line) := mark_line line in
  (* print slot description or "PCI Slots:" *)
  let result := result +++ line +++ "   " +++ nl in
  (* print expansion card description *)
  if is_device_line then
    if length descriptions =? 0 then Done (result +++ "Error" +++ nl, descriptions)
    else
      (popped <- Host.or_fail IndexError (pop descriptions) ;;
       let '(d, descriptions) := popped in
       Done (result +++ d +++ "  " +++ nl, descriptions))%prog
  else Done (result, descriptions).

Definition inxi_line : string :=
  "nix-shell -p 'inxi.override { withRecommends = true; }' --run " +++ dq
    +++ "sudo inxi --slots -xxx -c0 --wrap-max 200" +++ dq.

(** The end of [doc_cards], from the loop on: [descriptions] is the
    reversed list and [inxi_stdout] the output of [inxi]. *)
Definition render_cards (h : DeployHost) (descriptions : list string)
    (inxi_stdout : string) : prog string :=
  (acc <- Host.for_each (splitlines inxi_stdout) (EmptyString, descriptions) doc_line ;;
   let result := fst acc in
   Done ("### " +++ host h +++ " " +++ nl +++ nl +++ result +++ " " +++ nl +++ nl))%prog.

(** [document_cards.doc_cards]: the Markdown section of one host. *)
Definition doc_cards (h : DeployHost) : prog string :=
  (descriptions <- get_slots h ;;
   let descriptions := rev descriptions in (* reverse so pop gives the first *)
   inxi_slots <- Host.run h (Shell inxi_line) default_check ;;
   render_cards h descriptions (stdout inxi_slots))%prog.

(** The pairing by position, as the documentation of the collector words it:
    the slot line number [n] (from 0) is followed by the description number
    [n], and by the error marker when there is no such description. *)
Fixpoint paired (descriptions : list string) (n : nat) (lines : list string) : string :=
  match lines with
  | [] => EmptyString
  | line :: lines' =>
      let '(shown, is_device_line) := mark_line line in
      if is_device_line then
        shown +++ "   " +++ nl
          +++ match nth_error descriptions n with
              | Some d => d +++ "  " +++ nl
              | None => "Error" +++ nl
              end
          +++ paired descriptions (S n) lines'
      else shown +++ "   " +++ nl +++ paired descriptions n lines'
  end.

(** [sorted(l, key=key)] on text keys: a stable sort, so equal keys keep the
    order they came in. *)
Fixpoint insert_by {A} (key : A -> string) (x : A) (l : list A) : list A :=
  match l with
  | [] => [x]
  | y :: l' =>
      if String.ltb (key y) (key x) then y :: insert_by key x l'
      else x :: l
  end.

Fixpoint sorted {A} (key : A -> string) (l : list A) : list A :=
  match l with
  | [] => []
  | x :: l' => insert_by key x (sorted key l')
  end.


(** The values a list of outcomes holds, or the first exception in it. *)
Fixpoint collect {A} (l : list (result A)) : result (list A) :=
  match l with
  | [] => Ok []
  | Ok a :: l' =>
      match collect l' with
      | Ok l'' => Ok (a :: l'')
      | Raise e => Raise e
      end
  | Raise e :: _ => Raise e
  end.

(** [map] of a function that may raise. *)
Fixpoint map_M {A B} (f : A -> M B) (l : list A) : M (list B) :=
  match l with
  | [] => ret []
  | x :: l' => y <- f x ;; ys <- map_M f l' ;; ret (y :: ys)
  end.

(** The end of [document_cards]: the sections of the hosts, in the order of
    the host names, as one text. *)
Definition join_cards (results : list (HostResult string)) : M string :=
  results2 <- map_M hr_result (sorted (fun i => host (hr_host i)) results) ;;
  ret (join "" results2).

(** [document_cards]: documents PCI expansion cards and returns a markdown
    string. *)
Definition document_cards (o : oracle) (sched : list nat) (hosts : list DeployHost)
  : M string :=
  results <- run_function o sched doc_cards hosts default_check ;;
  join_cards results.

(** ** The local file system *)

Module Os.

(** The absolute path of a directory given by its components. *)
Definition path_of (dir : list string) : string :=
  "/" +++ join "/" (rev dir).

(** [os.getcwd()]. *)
Definition getcwd : M (list string) := fun w => (Ok (cwd w), w).

(** The directory reached from [dir] along the relative path [p]. *)
Definition walk (dir : list string) (p : string) : list string :=
  fold_left
    (fun d c =>
       if String.eqb c ".." then tail d
       else if String.eqb c "." || String.eqb c "" then d
       else c :: d)
    (split "/" p) dir.

(** A path as the process sees it: a relative path starts at the working
    directory. *)
Definition abspath (dir : list string) (p : string) : string :=
  if String.prefix "/" p then p
  else path_of (walk dir p).

(** The directory has to exist. *)
Definition enter (dir : list string) : M unit :=
  fun w =>
    match fs w !! path_of dir with
    | Some _ => (Ok tt, set_cwd (fun _ => dir) w)
    | None => (Raise (FileNotFoundError (path_of dir)), w)
    end.

(** [os.chdir(p)] for a relative path. *)
Definition chdir (p : string) : M unit :=
  fun w => enter (walk (cwd w) p) w.

(** [os.path.exists(p)]. *)
Definition path_exists (p : string) : M bool :=
  fun w => (Ok (bool_decide (is_Some (fs w !! abspath (cwd w) p))), w).

(** [os.mkdir(p)]. *)
Definition mkdir (p : string) : M unit :=
  fun w =>
    let a := abspath (cwd w) p in
    match fs w !! a with
    | Some _ => (Raise (FileExistsError a), w)
    | None => (Ok tt, set_fs (fun m => <[a := EmptyString]> m) w)
    end.

(** The paths at or below a directory. *)
Definition below (dir p : string) : bool :=
  String.eqb dir p || String.prefix (dir +++ "/") p.

Definition remove_tree (dir : string) (m : gmap string string) : gmap string string :=
  filter (fun kv => below dir (fst kv) = false) m.

(** [shutil.rmtree(p, ignore_errors=True)]. *)
Definition rmtree (p : string) : M unit :=
  fun w => (Ok tt, set_fs (remove_tree (abspath (cwd w) p)) w).

(** [Path(dir / name).read_text()]. *)
Definition read_text (dir name : string) : M string :=
  fun w =>
    let a := dir +++ "/" +++ name in
    match fs w !! a with
    | Some text => (Ok text, w)
    | None => (Raise (FileNotFoundError a), w)
    end.

(** [Path(dir / name).write_text(text)]: the directory has to exist. *)
Definition write_text (dir name text : string) : M unit :=
  fun w =>
    let a := dir +++ "/" +++ name in
    match fs w !! dir with
    | Some _ => (Ok tt, set_fs (fun m => <[a := text]> m) w)
    | None => (Raise (FileNotFoundError a), w)
    end.

(** [with tempfile.TemporaryDirectory() as tmpdir: body]: [tmpdir] is the
    fresh directory that is made; when the body is left, by its end or by an
    exception, the directory and all below it are removed, and the exception
    goes on. *)
Definition TemporaryDirectory {A} (tmpdir : string) (body : string -> M A) : M A :=
  fun w =>
    let w1 := set_fs (fun m => <[tmpdir := EmptyString]> m) w in
    let '(r, w2) := body tmpdir w1 in
    (r, set_fs (remove_tree tmpdir) w2).

End Os.

(** ** [get_lldp_neighbors] and [update_lldp_info] *)

(** [get_lldp_neighbors.doc_tum]. *)
Definition doc_tum (h : DeployHost) : prog unit :=
  (_ <- Host.run_local h (Shell ("../../get-lldp-neighbors.sh " +++ host h)) default_check ;;
   Done tt)%prog.

(** [get_lldp_neighbors]: get LLDP-discovered neighbors. *)
Definition get_lldp_neighbors (o : oracle) (sched : list nat) (hosts : list string)
  : M unit :=
  let tum := List.map root_host HOSTS in
  pwd <- Os.getcwd ;;
  Os.chdir "docs/hosts" ;;;
  exists_ <- Os.path_exists "lldp" ;;
  (if negb exists_ then Os.mkdir "lldp" else ret tt) ;;;
  Os.chdir "lldp" ;;;
  _ <- run_function o sched doc_tum tum default_check ;;
  _ <- os_system o "../../generate-lldp-graph.sh" ;;
  Os.chdir ".." ;;;
  Os.rmtree "lldp" ;;;
  Os.enter pwd.



(** A computation that issues no command. *)
Definition silent {A} (m : M A) : Prop :=
  forall w, history (m w).2 = history w.


(** ** IPMI *)

Definition ipmi_password_line : string :=
  "sops -d --extract '[" +++ dq +++ "ipmi-passwords" +++ dq +++ "]' secrets.yml".

(** [ipmi_password]. *)
Definition ipmi_password (o : oracle) : M string :=
  p <- c_run o ipmi_password_line false ;;
  ret (stdout p).

Definition ipmitool_line (host password cmd : string) : string :=
  "ipmitool -I lanplus -H " +++ host +++ " -U ADMIN -P '" +++ password +++ "' " +++ cmd.

(** [ipmitool]. *)
Definition ipmitool (o : oracle) (host cmd : string) : M CompletedProcess :=
  password <- ipmi_password o ;;
  c_run o (ipmitool_line host password cmd) false.

(** [ipmi_powerconsumption.mgmt_hostname]: [str.split] never returns an empty
    list, so the assignment to [splits[0]] cannot raise. *)
Definition mgmt_hostname (hostname : string) : string :=
  let splits := split "." hostname in
  let splits :=
    match splits with
    | [] => []
    | s0 :: rest => (s0 +++ "-mgmt") :: rest
    end in
  join "." splits.

(** A text without dots: one label of a host name. *)
Definition dotless (s : string) : Prop := contains "." s = false.

(** The reading in the output of [ipmitool]: the first line with the label,
    [reading.strip().split(":")[1].strip().split(" ")[0]] of it, as a text
    and as the [int] that is added to the total. *)
Definition reading (label out : string) : result (string * Z) :=
  match index (List.filter (fun line => contains label line) (splitlines out)) 0 with
  | None => Raise IndexError
  | Some line =>
      match index (split ":" (strip line)) 1 with
      | None => Raise IndexError
      | Some field =>
          match index (split " " (strip field)) 0 with
          | None => Raise IndexError
          | Some text =>
              match int text with
              | None => Raise ValueError
              | Some n => Ok (text, n)
              end
          end
      end
  end.

(** The body of the two loops of [ipmi_powerconsumption]: they differ in the
    command sent to the management console and in the label of the line that
    holds the reading.  The loop variables are [total] and [hosts]. *)
Definition measure (o : oracle) (cmd label : string) (acc : Z * list string)
    (hostname : string) : M (Z * list string) :=
  let '(total, hosts) := acc in
  short <- or_raise IndexError (index (split "." hostname) 0) ;;
  let hosts := hosts ++ [short] in
  let hostname := mgmt_hostname hostname in
  print hostname ;;;
  res <- ipmitool o hostname cmd ;;
  r <- (fun w => (reading label (stdout res), w)) ;;
  let '(reading, n) := r in
  let total := (total + n)%Z in
  print ("  " +++ reading +++ " Watts") ;;;
  print "" ;;;
  ret (total, hosts).

(** The end of [ipmi_powerconsumption]: the hosts and the total are printed. *)
Definition summary (acc : Z * list string) : M unit :=
  let '(total, hosts) := acc in
  print "" ;;;
  print ("  Measured hosts: " +++ repr_list hosts) ;;;
  print ("  Total Consumption: " +++ pretty total +++ " Watts") ;;;
  print "".

(** [ipmi_powerconsumption]: measure the power consumption of our servers
    via IPMI. Note that this does not include all servers. *)
Definition ipmi_powerconsumption (o : oracle) : M unit :=
  let total := 0%Z in
  let hosts := [] in
  (* dell *)
  dell <- or_raise KeyError (MANUFACTURERS !! "dell") ;;
  acc <- for_each dell (total, hosts)
           (measure o "sensor get Pwr\ Consumption" "Sensor Reading") ;;
  (* supermicro *)
  supermicro <- or_raise KeyError (MANUFACTURERS !! "supermicro") ;;
  acc <- for_each supermicro acc
           (measure o "dcmi power reading" "Instantaneous power reading:") ;;
  summary acc.

(** The hosts that are measured, in the order of the two loops, each with
    the command and the label of its manufacturer. *)
Definition plan : list (string * (string * string)) :=
  List.map (fun n => (n, ("sensor get Pwr\ Consumption", "Sensor Reading")))
    (default [] (MANUFACTURERS !! "dell"))
  ++ List.map (fun n => (n, ("dcmi power reading", "Instantaneous power reading:")))
       (default [] (MANUFACTURERS !! "supermicro")).

(** One step of the measurement along the plan. *)
Definition measure_planned (o : oracle) (acc : Z * list string)
    (item : string * (string * string)) : M (Z * list string) :=
  measure o item.2.1 item.2.2 acc item.1.

(** The two calls that measuring a host makes. *)
Definition password_call : event := ContextRun ipmi_password_line false.

Definition ipmitool_call (host password cmd : string) : event :=
  ContextRun (ipmitool_line host password cmd) false.

(** The first label of a host name. *)
Definition short_name (hostname : string) : string :=
  hd EmptyString (split "." hostname).

(** The watts that an answer of [ipmitool] adds to the total. *)
Definition watts (label : string) (res : CompletedProcess) : Z :=
  match reading label (stdout res) with
  | Ok (_, n) => n
  | Raise _ => 0%Z
  end.

(** The calls that measuring the host of an item of the plan adds to the
    history, with their answers: the password, then the reading. *)
Definition pair_calls (item : string * (string * string))
    (a : CompletedProcess * CompletedProcess) : list entry :=
  [(password_call, a.1);
   (ipmitool_call (mgmt_hostname item.1) (stdout a.1) item.2.1, a.2)].

(** The calls of the measurement: for the password, and to the management
    console of a host of the plan with the command of its manufacturer. *)
Definition measured_call (e : event) : Prop :=
  e = password_call
  \/ exists item password,
       In item plan /\ e = ipmitool_call (mgmt_hostname item.1) password item.2.1.

(** The sum of the watts in the answers along the plan. *)
Definition total_watts (items : list (string * (string * string)))
    (answers : list (CompletedProcess * CompletedProcess)) : Z :=
  fold_right Z.add 0%Z (zip_with (fun item a => watts item.2.2 a.2) items answers).

(** An environment in which the management consoles answer with sample
    lines of the two formats: 210 Watts on a Dell machine, 180 Watts on a
    Supermicro machine. *)
Definition steady : oracle :=
  fun _ files e =>
    match e with
    | ContextRun line _ =>
        if contains "sensor get" line then
          ({| returncode := 0;
              stdout := "Sensor ID              : Pwr Consumption (0x77)" +++ String cr nl
                        +++ " Sensor Reading        : 210 (+/- 0) Watts" +++ String cr nl |},
           files)
        else if contains "dcmi power" line then
          ({| returncode := 0;
              stdout := String cr nl
                        +++ "    Instantaneous power reading:                   180 Watts"
                        +++ String cr nl |},
           files)
        else ({| returncode := 0; stdout := "secret" |}, files)
    | _ => (exit_status 0, files)
    end.

(** An environment in which every command succeeds and prints nothing. *)
Definition mute : oracle := fun _ files _ => (exit_status 0, files).

(** A file system without a path at or below the directory [dir]. *)
Definition absent (dir : string) (files : gmap string string) : Prop :=
  map_Forall (fun p _ => Os.below dir p = false) files.

(** A computation that leaves the file system as it is. *)
Definition keeps_files {A} (m : M A) : Prop :=
  forall w, fs (m w).2 = fs w.

(** An environment in which every command succeeds, prints nothing and
    leaves a private key in the directory [dir]. *)
Definition leaves_key (dir : string) : oracle :=
  fun _ files _ =>
    (exit_status 0,
     <[dir +++ "/etc/ssh/ssh_host_ed25519_key" := "PRIVATE KEY"]> files).

(** ** Host keys and certificates *)

Section Keys.

(** The directory of [tasks.py]. *)
Variable ROOT : string.

(** Is the standard error stream a terminal. *)
Variable HAS_TTY : bool.

(** [json.dumps] of a text. *)
Variable json_dumps : string -> string.

Definition esc : string := String "027"%char EmptyString.

(** [color_text(code)(text)], on the standard output. *)
Definition color_text (code text : string) : M unit :=
  if HAS_TTY then print (esc +++ "[" +++ code +++ "m" +++ text +++ esc +++ "[0m")
  else print text.

Definition info : string -> M unit := color_text "32".

(** [decrypt_host_keys].  The calls of [os.umask] set the permission bits of
    the files made next; the file system here has no permission bits, so
    they leave no trace. *)
Definition decrypt_host_keys (o : oracle) (host tmpdir : string) : M unit :=
  Os.mkdir (tmpdir +++ "/etc") ;;;
  Os.mkdir (tmpdir +++ "/etc/ssh") ;;;
  for_each
    ["ssh_host_rsa_key"; "ssh_host_rsa_key.pub";
     "ssh_host_ed25519_key"; "ssh_host_ed25519_key.pub"]
    tt
    (fun _ keyname =>
       _ <- c_run o
         ("sops --extract '[" +++ dq +++ keyname +++ dq +++ "]' -d " +++ ROOT
            +++ "/hosts/" +++ host +++ ".yml > " +++ tmpdir +++ "/etc/ssh/" +++ keyname)
         false ;;
       ret tt).

Definition nixos_remote_pxe : string :=
  "sudo -E PYTHONPATH=$PYTHONPATH PATH=$PATH python3 /home/okelmann/nixos-anywhere/nixos-anywhere-pxe.py".

(** [reformat_install_nixos]: format disks and install nixos. *)
Definition reformat_install_nixos (o : oracle) (tmp : string)
    (host dhcp_interface : string) : M unit :=
  Os.TemporaryDirectory tmp (fun tmpdir =>
    decrypt_host_keys o host tmpdir ;;;
    _ <- c_run o
      (nixos_remote_pxe +++ " --flake .#" +++ host
         +++ " --netboot-image-flake 'github:nix-community/nixos-images#netboot-installer-nixos-unstable' --dhcp-interface "
         +++ dhcp_interface +++ " --extra-files " +++ tmpdir
         +++ " --no-reboot --pause-after-completion")
      false ;;
    ret tt) ;;;
  info "Device information:" ;;;
  info "Remember to note down MAC addresses for IPMI port and network ports connected to foreign routers.".

(** The body of the loop of [generate_ssh_cert] over the key types. *)
Definition stage_key (o : oracle) (sops_file host tmpdir : string) (_ : unit)
    (keytype : string) : M unit :=
  res <- c_run o
    ("sops --extract '[" +++ dq +++ "ssh_host_" +++ keytype +++ "_key.pub" +++ dq
       +++ "]' -d " +++ sops_file)
    true ;;
  let dir := tmpdir +++ "/etc/ssh" in
  let privkey := "ssh_host_" +++ keytype +++ "_key" in
  let pubkey := "ssh_host_" +++ keytype +++ "_key.pub" in
  if String.length (stdout res) =? 0 then
    (* create host key with comment -c and empty passphrase -N '' *)
    _ <- c_run o
      ("ssh-keygen -f " +++ dir +++ "/" +++ privkey +++ " -t " +++ keytype
         +++ " -C 'host key for host " +++ host +++ "' -N ''")
      false ;;
    text <- Os.read_text dir privkey ;;
    _ <- c_run o
      ("sops --set '[" +++ dq +++ "ssh_host_" +++ keytype +++ "_key" +++ dq +++ "] "
         +++ json_dumps text +++ "' " +++ sops_file)
      false ;;
    text <- Os.read_text dir pubkey ;;
    _ <- c_run o
      ("sops --set '[" +++ dq +++ "ssh_host_" +++ keytype +++ "_key.pub" +++ dq +++ "] "
         +++ json_dumps text +++ "' " +++ sops_file)
      false ;;
    ret tt
  else
    (* save existing cert so we can generate an ssh certificate *)
    Os.write_text dir pubkey (stdout res).

(** [generate_ssh_cert]: generate ssh cert for host.  [os.umask] leaves no
    trace, as in [decrypt_host_keys]. *)
Definition generate_ssh_cert (o : oracle) (tmp : string) (host : string) : M unit :=
  let h := host in
  let sops_file := ROOT +++ "/hosts/" +++ host +++ ".yml" in
  Os.TemporaryDirectory tmp (fun tmpdir =>
    _ <- c_run o ("mkdir -p " +++ tmpdir +++ "/etc/ssh") false ;;
    for_each ["rsa"; "ed25519"] tt (stage_key o sops_file host tmpdir) ;;;
    _ <- c_run o
      ("sops --extract '[" +++ dq +++ "ssh-ca" +++ dq +++ "]' -d " +++ ROOT
         +++ "/modules/sshd/ca-keys.yml > " +++ tmpdir +++ "/ssh-ca")
      false ;;
    let valid_hostnames := h +++ ".r," +++ h +++ ".dse.in.tum.de," +++ h +++ ".thalheim.io" in
    let pubkey_path := tmpdir +++ "/etc/ssh/ssh_host_ed25519_key.pub" in
    _ <- c_run o
      ("ssh-keygen -h -s " +++ tmpdir +++ "/ssh-ca -n " +++ valid_hostnames +++ " -I " +++ h
         +++ " " +++ pubkey_path)
      false ;;
    let signed_key_src := tmpdir +++ "/etc/ssh/ssh_host_ed25519_key-cert.pub" in
    let signed_key_dst := ROOT +++ "/modules/sshd/certs/" +++ host +++ "-cert.pub" in
    _ <- c_run o ("mv " +++ signed_key_src +++ " " +++ signed_key_dst) false ;;
    ret tt).

End Keys.

(** * The other tasks *)

(** ** Host lists and host names *)

(** A text in which the character [c] does not occur: one field of a split
    at [c]. *)
Definition sepless (c : ascii) (s : string) : Prop :=
  contains (String c EmptyString) s = false.

(** ** Deployments *)

(** The host of [deploy_ruby].  [forward_agent] and [command_prefix] are
    settings of deploykit's transport and log; [tasks.py] never reads them
    and the record of a host does not hold them. *)
Definition ruby_host : DeployHost :=
  {| host := "graham.dse.in.tum.de";
     user := Some "root";
     meta := <["target_user" := "root"]>
               (<["target_host" := "ruby.r"]>
                  (<["flake_attr" := "ruby"]>
                     (<["config_dir" := "/var/lib/nixos-config"]> ∅))) |}.

(** [deploy_ruby]: deploy to riscv server. *)
Definition deploy_ruby (json_path : string -> result string) (o : oracle)
    (sched : list nat) : M unit :=
  deploy_nixos json_path o sched [ruby_host].

(** [deploy_host]: deploy to a single host. *)
Definition deploy_host (json_path : string -> result string) (o : oracle)
    (sched : list nat) (host : string) : M unit :=
  deploy_nixos json_path o sched [root_host host].

(** The keys of [meta] that [deploy] looks up. *)
Definition deploy_keys : list string :=
  ["flake_path"; "flake_attr"; "target_host"; "target_user"].

(** The own run [tr] of the work for [h] ends with an activation that
    returned zero. *)
Definition activated (h : DeployHost) (tr : list entry) : Prop :=
  exists l check p,
    tr = l ++ [(switch_call h check, p)] /\ returncode p = 0%Z.

(** ** The cards of a host *)

(** The two calls of [get_slots] and [doc_cards] that list the slots. *)
Definition dmidecode_call (h : DeployHost) : event :=
  HostRun (host h)
    (Shell ("nix-shell -p 'dmidecode' --run " +++ dq +++ "sudo dmidecode -t slot" +++ dq))
    false.

Definition inxi_call (h : DeployHost) : event :=
  HostRun (host h) (Shell inxi_line) default_check.

(** The number of lines of [inxi] that [doc_cards] takes for the line of a
    slot. *)
Definition status_lines (lines : list string) : nat :=
  length (List.filter (fun line => (mark_line line).2) lines).

(** The lines of [inxi] as they are rendered when there is no description at
    all: every line of a slot is followed by the marker. *)
Fixpoint errors_only (lines : list string) : string :=
  match lines with
  | [] => EmptyString
  | line :: lines' =>
      let '(shown, is_device_line) := mark_line line in
      shown +++ "   " +++ nl
        +++ (if is_device_line then "Error" +++ nl else EmptyString)
        +++ errors_only lines'
  end.

(** ** Tasks that run one command after the other *)

(** The command has returned the exit status zero. *)
Definition zero (en : entry) : Prop := returncode en.2 = 0%Z.

(** The commands [H] that were issued are a first part of the [plan], in its
    order, and each of them but the last has returned zero: the run has gone
    on only as long as the commands succeeded. *)
Definition fail_fast (plan : list event) (H : list entry) : Prop :=
  List.map fst H `prefix_of` plan /\ Forall zero (removelast H).

(** All the commands of the [plan] were issued, in its order, and each has
    returned zero. *)
Definition completed (plan : list event) (H : list entry) : Prop :=
  List.map fst H = plan /\ Forall zero H.


(** The lines of [decrypt_host_keys] and [reformat_install_nixos]. *)
Definition extract_key_line (ROOT host tmpdir keyname : string) : string :=
  "sops --extract '[" +++ dq +++ keyname +++ dq +++ "]' -d " +++ ROOT
    +++ "/hosts/" +++ host +++ ".yml > " +++ tmpdir +++ "/etc/ssh/" +++ keyname.

Definition install_line (host dhcp_interface tmpdir : string) : string :=
  nixos_remote_pxe +++ " --flake .#" +++ host
    +++ " --netboot-image-flake 'github:nix-community/nixos-images#netboot-installer-nixos-unstable' --dhcp-interface "
    +++ dhcp_interface +++ " --extra-files " +++ tmpdir
    +++ " --no-reboot --pause-after-completion".

(** The commands of [reformat_install_nixos], in the order of the source. *)
Definition install_plan (ROOT host dhcp_interface tmpdir : string) : list event :=
  [ContextRun (extract_key_line ROOT host tmpdir "ssh_host_rsa_key") false;
   ContextRun (extract_key_line ROOT host tmpdir "ssh_host_rsa_key.pub") false;
   ContextRun (extract_key_line ROOT host tmpdir "ssh_host_ed25519_key") false;
   ContextRun (extract_key_line ROOT host tmpdir "ssh_host_ed25519_key.pub") false;
   ContextRun (install_line host dhcp_interface tmpdir) false].





(** [DeployGroup(hosts).run(cmd, check=check)]: deploykit starts the command
    on every host at once, waits for all of them, and then, unless [check]
    is off, raises when the command of some host has raised; the check of
    the exit status is handed on to the command of each host.  The results
    come in the order in which the hosts ended; the tasks here drop them. *)
Definition group_run (o : oracle) (sched : list nat) (hosts : list DeployHost)
    (cmd : command) (check : bool) : M unit :=
  _ <- run_function o sched (fun h => Host.run h cmd check) hosts check ;;
  ret tt.

(** [run]: run provided command on the given hosts, if no host list is
    provided, than the command is run on all hosts. *)
Definition run (o : oracle) (sched : list nat) (command hosts : string) : M unit :=
  let g :=
    if String.eqb hosts "" then List.map root_host HOSTS
    else get_hosts hosts in
  group_run o sched g (Shell command) default_check.

(** The hosts that [run] addresses. *)
Definition run_group (hosts : string) : list DeployHost :=
  if String.eqb hosts "" then List.map root_host HOSTS else get_hosts hosts.

(** [cleanup_gcroots].  Every dispatch has a schedule of its own: [sched]
    gives it for the host and for the command. *)
Definition cleanup_gcroots (o : oracle) (sched : DeployHost -> string -> list nat)
    (hosts : string) : M unit :=
  let deploy_hosts := List.map root_host (split "," hosts) in
  for_each deploy_hosts tt
    (fun _ h =>
       let g := [h] in
       group_run o (sched h "find /nix/var/nix/gcroots/auto -type s -delete") g
         (Shell "find /nix/var/nix/gcroots/auto -type s -delete") default_check ;;;
       group_run o (sched h "systemctl restart nix-gc") g
         (Shell "systemctl restart nix-gc") default_check).


(** ** The other IPMI tasks *)

(** [ipmi_boot]. *)
Definition ipmi_boot (o : oracle) (host bootdev : string) : M unit :=
  _ <- ipmitool o host ("chassis bootdev " +++ bootdev) ;;
  _ <- ipmitool o host "power cycle" ;;
  ret tt.

(** [ipmi_boot_bios]: set the next boot to bios and reboot. *)
Definition ipmi_boot_bios (o : oracle) (host : string) : M unit :=
  ipmi_boot o host "bios".

(** [ipmi_boot_pxe]. *)
Definition ipmi_boot_pxe (o : oracle) (host : string) : M unit :=
  ipmi_boot o host "pxe".

(** The runs of [ipmitool] for a command to the console of a host: the calls
    with their outcomes, and how the function ends.  The password that is
    handed on is the output of the call before, as it is. *)
Inductive ipmitool_run (host cmd : string)
  : list entry -> result CompletedProcess -> Prop :=
  | no_password p0 :
      returncode p0 <> 0%Z ->
      ipmitool_run host cmd [(password_call, p0)]
        (Raise (UnexpectedExit (returncode p0)))
  | command_failed p0 p1 :
      returncode p0 = 0%Z -> returncode p1 <> 0%Z ->
      ipmitool_run host cmd
        [(password_call, p0); (ipmitool_call host (stdout p0) cmd, p1)]
        (Raise (UnexpectedExit (returncode p1)))
  | command_done p0 p1 :
      returncode p0 = 0%Z -> returncode p1 = 0%Z ->
      ipmitool_run host cmd
        [(password_call, p0); (ipmitool_call host (stdout p0) cmd, p1)]
        (Ok p1).

(** The result of a function that returns nothing, after the result of its
    last call. *)
Definition dropped {A} (r : result A) : result unit :=
  match r with
  | Ok _ => Ok tt
  | Raise e => Raise e
  end.

(** An environment in which the boot device cannot be set. *)
Definition refuses_bootdev : oracle :=
  fun _ files e =>
    match e with
    | ContextRun line _ =>
        if contains "sops" line then ({| returncode := 0; stdout := "secret" |}, files)
        else if contains "chassis bootdev" line then (exit_status 1, files)
        else (exit_status 0, files)
    | _ => (exit_status 0, files)
    end.

(** ** The keys that [generate_ssh_cert] stages *)

(** A computation that takes nothing back: the commands issued before it
    stay as they are. *)
Definition grows {A} (m : M A) : Prop :=
  forall w, exists H, history (m w).2 = history w ++ H.

(** The first two commands of the loop of [generate_ssh_cert]: the public
    key is asked for, and a new key is made. *)
Definition extract_pub_call (sops_file keytype : string) : event :=
  ContextRun
    ("sops --extract '[" +++ dq +++ "ssh_host_" +++ keytype +++ "_key.pub" +++ dq
       +++ "]' -d " +++ sops_file)
    true.

Definition keygen_call (host tmpdir keytype : string) : event :=
  ContextRun
    ("ssh-keygen -f " +++ (tmpdir +++ "/etc/ssh") +++ "/" +++ ("ssh_host_" +++ keytype +++ "_key")
       +++ " -t " +++ keytype +++ " -C 'host key for host " +++ host +++ "' -N ''")
    false.

(** The file in which the public key is staged. *)
Definition staged_pubkey (tmpdir keytype : string) : string :=
  (tmpdir +++ "/etc/ssh") +++ "/" +++ ("ssh_host_" +++ keytype +++ "_key.pub").

(** An environment in which the secrets cannot be read: every call of
    [sops] fails and prints nothing, every other command succeeds and
    leaves the two files of a key pair. *)
Definition sops_fails (dir : string) : oracle :=
  fun _ files e =>
    match e with
    | ContextRun line _ =>
        if String.prefix "sops --extract" line then (exit_status 1, files)
        else
          (exit_status 0,
           <[dir +++ "/etc/ssh/ssh_host_rsa_key" := "PRIVATE"]>
             (<[dir +++ "/etc/ssh/ssh_host_rsa_key.pub" := "PUBLIC"]> files))
    | _ => (exit_status 0, files)
    end.

(** ** The working directory of [get_lldp_neighbors] *)


(** An environment in which the script fails for the host [name]. *)
Definition script_fails (name : string) : oracle :=
  fun _ files e =>
    match e with
    | HostRunLocal h _ _ =>
        if String.eqb h name then (exit_status 1, files) else (exit_status 0, files)
    | _ => (exit_status 0, files)
    end.

(** ** [document_nixos] and [update_docs] *)

(** [document_nixos.doc_host]: generate per-host docs. *)
Definition doc_host (h : DeployHost) : prog unit :=
  (_ <- Host.run_local h
          (Shell ("cd ./docs/hosts && ../generate-host-info.sh " +++ host h))
          default_check ;;
   Done tt)%prog.

Section Docs.

(** The directory of [tasks.py]. *)
Variable ROOT : string.

(** [Template(template).substitute(dict(PCI_SLOT_ALLOCATION=cards))], given
    the template and the cards. *)
Variable substitute : string -> string -> result string.

(** [document_nixos]: generate documentation.  The two dispatches have a
    schedule each. *)
Definition document_nixos (o : oracle) (sched : list nat * list nat)
    (_hosts : list string) : M unit :=
  let hosts := List.map root_host _hosts in
  _ <- run_function o sched.1 doc_host hosts default_check ;;
  (* generate expansion cards docs *)
  cards <- document_cards o sched.2 hosts ;;
  template <- Os.read_text (ROOT +++ "/docs") "expansion_cards.md.template" ;;
  content <- (fun w => (substitute template cards, w)) ;;
  Os.write_text (ROOT +++ "/docs") "expansion_cards.md" content.

(** [update_docs]: regenerate docs for all servers. *)
Definition update_docs (o : oracle) (sched : list nat * list nat) (hosts : string)
  : M unit :=
  let host_list := if negb (String.eqb hosts "") then split "," hosts else HOSTS in
  document_nixos o sched host_list.

End Docs.

(** The hosts that [update_docs] documents. *)
Definition documented (hosts : string) : list string :=
  if negb (String.eqb hosts "") then split "," hosts else HOSTS.

(** The call of the script that documents a host. *)
Definition host_info_call (name : string) : event :=
  HostRunLocal name (Shell ("cd ./docs/hosts && ../generate-host-info.sh " +++ name))
    default_check.

(** A command on one of the machines [names]. *)
Definition on_hosts (names : list string) (e : event) : Prop :=
  exists name cmd check, In name names /\ e = HostRun name cmd check.

(** ** [build_local] and [flake_check] *)

(** The argument vector of the build of a host. *)
Definition build_local_cmd (name : string) : command :=
  Argv [
    "nixos-rebuild";
    "build";
    "--option";
    "accept-flake-config";
    "true";
    "--option";
    "keep-going";
    "true";
    "--flake";
    ".#" +++ name
  ].

(** [build_local.build_local]: the work for one host. *)
Definition build_local_host (h : DeployHost) : prog unit :=
  (_ <- Host.run_local h (build_local_cmd (host h)) default_check ;;
   Done tt)%prog.

(** [build_local]: build nixos configurations locally. *)
Definition build_local (o : oracle) (sched : list nat) (hosts : string) : M unit :=
  let g := get_hosts hosts in
  _ <- run_function o sched build_local_host g default_check ;;
  ret tt.

(** The build of a host, as a call. *)
Definition build_call (name : string) : event :=
  HostRunLocal name (build_local_cmd name) default_check.

(** [flake_check]: run nix checks on this repo. *)
Definition flake_check (o : oracle) : M unit :=
  let cmd := "nix flake check --option allow-import-from-derivation true" in
  print ("$ " +++ cmd) ;;;
  _ <- os_system o cmd ;;
  ret tt.

(** * Properties *)

(** ** The string primitives on sample texts *)

Example splitlines_samples :
  splitlines ("a" +++ nl +++ nl +++ "b" +++ String cr nl) = ["a"; ""; "b"]
  /\ splitlines "" = []
  /\ splitlines nl = [""]
  /\ splitlines "ab" = ["ab"].
Proof. repeat split; reflexivity. Qed.

Example strip_samples :
  strip "  a b  " = "a b" /\ strip "   " = "" /\ strip "" = "".
Proof. repeat split; reflexivity. Qed.

Example int_samples :
  int " 42 " = Some 42%Z /\ int "-1_0" = Some (-10)%Z /\ int "1__0" = None
  /\ int "" = None /\ int "_1" = None /\ int "1_" = None
  /\ int "007" = Some 7%Z /\ int "na" = None.
Proof. repeat split; reflexivity. Qed.

Example split_samples :
  split ", " "a, b,, c" = ["a"; "b,"; "c"]
  /\ split "aa" "aaa" = [""; "a"]
  /\ split "." "" = [""]
  /\ split "." "a." = ["a"; ""].
Proof. repeat split; reflexivity. Qed.

Example replace_samples :
  replace "ab" "X" "aabab" = "aXX" /\ replace "aa" "b" "aaa" = "ba".
Proof. repeat split; reflexivity. Qed.

Example contains_samples :
  contains "status: In Use" "  Slot: 1 status: In Use x" = true
  /\ contains "" "" = true
  /\ contains "a" "" = false.
Proof. repeat split; reflexivity. Qed.

(** ** Texts *)

#[local] Arguments String.append !_ _ / : simpl nomatch.

Lemma append_assoc (a b c : string) : (a +++ b) +++ c = a +++ b +++ c.
Proof. induction a as [|x a IH]; simpl; [reflexivity | now rewrite IH]. Qed.

Lemma append_nil_r (a : string) : a +++ "" = a.
Proof. induction a as [|x a IH]; simpl; [reflexivity | now rewrite IH]. Qed.

Lemma prefix_char (d c : ascii) (s : string) :
  String.prefix (String d "") (String c s) = if ascii_dec d c then true else false.
Proof.
  cbn [String.prefix]. destruct (ascii_dec d c); [|reflexivity].
  destruct s; reflexivity.
Qed.

Lemma dotless_cons (c : ascii) (s : string) :
  dotless (String c s) -> c <> "."%char /\ dotless s.
Proof.
  unfold dotless. cbn [contains]. rewrite prefix_char.
  destruct (ascii_dec "." c) as [->|Hne]; [discriminate|].
  intros H. split; [congruence|exact H].
Qed.

Lemma split_dot_step (cur : string) (c : ascii) (s : string) :
  c <> "."%char ->
  split_aux "." 0 cur (String c s) = split_aux "." 0 (cur +++ String c "") s.
Proof.
  intros Hc. cbn [split_aux]. rewrite prefix_char.
  destruct (ascii_dec "." c); [congruence|reflexivity].
Qed.

Lemma split_dot_sep (cur s : string) :
  split_aux "." 0 cur (String "." s) = cur :: split_aux "." 0 "" s.
Proof.
  cbn [split_aux]. rewrite prefix_char.
  destruct (ascii_dec "." "."); [reflexivity|congruence].
Qed.

Lemma split_dot_join (cur l : string) (ls : list string) :
  dotless l -> Forall dotless ls ->
  split_aux "." 0 cur (join "." (l :: ls)) = (cur +++ l) :: ls.
Proof.
  intros Hl Hls. revert cur l Hl.
  induction Hls as [|l' ls Hl' Hls IH]; intros cur l Hl.
  - change (join "." [l]) with l. revert cur.
    induction l as [|c l IHl]; intros cur.
    + now rewrite append_nil_r.
    + apply dotless_cons in Hl as [Hc Hl].
      rewrite split_dot_step, IHl, append_assoc by assumption. reflexivity.
  - change (join "." (l :: l' :: ls)) with (l +++ "." +++ join "." (l' :: ls)).
    revert cur. induction l as [|c l IHl]; intros cur.
    + change ("" +++ "." +++ join "." (l' :: ls))
        with (String "." (join "." (l' :: ls))).
      rewrite split_dot_sep, (IH "" l' Hl'), append_nil_r. reflexivity.
    + apply dotless_cons in Hl as [Hc Hl].
      change (String c l +++ "." +++ join "." (l' :: ls))
        with (String c (l +++ "." +++ join "." (l' :: ls))).
      rewrite split_dot_step, IHl, append_assoc by assumption. reflexivity.
Qed.

(** ** [mgmt_hostname] *)

(** C5: the management host name of a name made of dot-free labels is the
    same name with [-mgmt] appended to the first label; the other labels
    stay as they are. *)
Theorem mgmt_hostname_first_label (l0 : string) (ls : list string) :
  dotless l0 -> Forall dotless ls ->
  mgmt_hostname (join "." (l0 :: ls)) = join "." ((l0 +++ "-mgmt") :: ls).
Proof.
  intros H0 Hls. unfold mgmt_hostname, split.
  now rewrite (split_dot_join "" l0 ls H0 Hls).
Qed.

Lemma mgmt_hostname_ryan :
  (dotless "ryan" /\ Forall dotless ["dse"; "in"; "tum"; "de"])
  /\ mgmt_hostname "ryan.dse.in.tum.de" = "ryan-mgmt.dse.in.tum.de".
Proof.
  assert (H0 : dotless "ryan") by reflexivity.
  assert (Hls : Forall dotless ["dse"; "in"; "tum"; "de"])
    by (repeat constructor).
  split; [split; assumption|].
  exact (mgmt_hostname_first_label "ryan" ["dse"; "in"; "tum"; "de"] H0 Hls).
Defined.

(** ** [doc_cards] *)

Lemma pop_snoc {A} (l : list A) (x : A) : pop (l ++ [x]) = Some (x, l).
Proof. unfold pop. rewrite rev_unit. simpl. now rewrite rev_involutive. Qed.

Lemma drop_nth_error {A} (l : list A) (n : nat) (x : A) :
  nth_error l n = Some x -> drop n l = x :: drop (S n) l.
Proof.
  revert n. induction l as [|y l IH]; intros [|n] H; simpl in *;
    try discriminate.
  - now injection H as ->.
  - now apply IH.
Qed.

(** The loop of [doc_cards], started at any slot number [n]. *)
Lemma doc_lines_paired (ds lines : list string) (acc : string) (n : nat) :
  exists rest,
    Host.for_each lines (acc, rev (drop n ds)) doc_line
    = Done (acc +++ paired ds n lines, rest).
Proof.
  revert acc n. induction lines as [|line lines IH]; intros acc n.
  - exists (rev (drop n ds)). simpl. now rewrite append_nil_r.
  - cbn [Host.for_each paired]. unfold doc_line at 1.
    destruct (mark_line line) as [shown [|]].
    + destruct (nth_error ds n) as [d|] eqn:Hn.
      * rewrite (drop_nth_error _ _ _ Hn). cbn [rev].
        rewrite length_app. cbn [length].
        replace (length (rev (drop (S n) ds)) + 1 =? 0) with false
          by (symmetry; apply Nat.eqb_neq; lia).
        rewrite pop_snoc. cbn [Host.or_fail pbind].
        destruct (IH ((acc +++ shown +++ "   " +++ nl) +++ d +++ "  " +++ nl) (S n))
          as [rest ->].
        exists rest. now rewrite !append_assoc.
      * apply nth_error_None in Hn.
        assert (Hlen : length (rev (drop n ds)) = 0)
          by (rewrite length_rev, length_drop; lia).
        rewrite Hlen. cbn [Nat.eqb pbind].
        assert (E : rev (drop n ds) = rev (drop (S n) ds))
          by (rewrite !drop_ge by lia; reflexivity).
        rewrite E.
        destruct (IH ((acc +++ shown +++ "   " +++ nl) +++ "Error" +++ nl) (S n))
          as [rest ->].
        exists rest. now rewrite !append_assoc.
    + cbn [pbind].
      destruct (IH (acc +++ shown +++ "   " +++ nl) n) as [rest ->].
      exists rest. now rewrite !append_assoc.
Qed.


Example doc_cards_two_slots_one_description :
  render_cards (root_host "amy") (rev ["NIC"])
    ("PCI Slots:" +++ nl +++ "  Slot: 1 status: In Use" +++ nl
       +++ "  Slot: 2 status: Available" +++ nl)
  = Done ("### amy " +++ nl +++ nl
            +++ "PCI Slots:   " +++ nl
            +++ "- ❌  Slot: 1 status: In Use   " +++ nl
            +++ "NIC  " +++ nl
            +++ "- ✅  Slot: 2 status: Available   " +++ nl
            +++ "Error" +++ nl
            +++ " " +++ nl +++ nl).
Proof. reflexivity. Qed.

(** ** [sorted] and [join_cards] *)

Example sorted_is_stable :
  sorted fst [("b", 1); ("a", 2); ("a", 1)] = [("a", 2); ("a", 1); ("b", 1)].
Proof. reflexivity. Qed.

Section Sorted.

Context {A : Type} (key : A -> string).







End Sorted.



Lemma map_M_hr_result {A} (l : list (HostResult A)) (w : world) :
  map_M hr_result l w = (collect (List.map hr_outcome l), w).
Proof.
  induction l as [|r l IH]; [reflexivity|].
  cbn [map_M List.map collect]. unfold bind, hr_result at 1.
  destruct (hr_outcome r); cbn; [|reflexivity].
  rewrite IH. now destruct (collect (List.map hr_outcome l)).
Qed.



(** ** [deploy] *)

Lemma checked_zero (check : bool) (p : CompletedProcess) :
  returncode p = 0%Z -> Host.checked check p = Done p.
Proof.
  intros H. unfold Host.checked. rewrite H. now rewrite andb_false_r.
Qed.

(** C1, as amended: for a host whose file sync returned zero, the activation
    command is attempted once; it is attempted a second time, with the same
    argument vector, exactly when the first attempt returned a non-zero
    status; the work of the host succeeds when the first attempt or the
    retry returns zero and fails when both return a non-zero status. *)
Theorem deploy_retries_once (path : string) (h : DeployHost)
    (p0 p1 p2 : CompletedProcess) (rest : list CompletedProcess) :
  returncode p0 = 0%Z ->
  feed (deploy path h) (p0 :: p1 :: p2 :: rest)
  = if (returncode p1 =? 0)%Z
    then ([(sync_call path h, p0); (switch_call h false, p1)], Some (Ok tt))
    else ([(sync_call path h, p0); (switch_call h false, p1);
           (switch_call h true, p2)],
          Some (if (returncode p2 =? 0)%Z then Ok tt
                else Raise (CalledProcessError (returncode p2)))).
Proof.
  intros H0. unfold deploy, Host.run_local, Host.run.
  cbn [pbind feed]. rewrite (checked_zero _ _ H0). cbn [pbind feed].
  unfold Host.checked at 1. cbn [andb pbind].
  destruct (returncode p1 =? 0)%Z eqn:E1; cbn [negb pbind feed]; [reflexivity|].
  unfold Host.checked, default_check. cbn [andb].
  destruct (returncode p2 =? 0)%Z; reflexivity.
Qed.

Lemma deploy_retry_succeeds :
  let h := root_host "amy.dse.in.tum.de" in
  returncode (exit_status 0) = 0%Z
  /\ feed (deploy "/nix/store/src" h) [exit_status 0; exit_status 1; exit_status 0]
     = ([(sync_call "/nix/store/src" h, exit_status 0);
         (switch_call h false, exit_status 1);
         (switch_call h true, exit_status 0)],
        Some (Ok tt)).
Proof.
  intros h. split; [reflexivity|].
  exact (deploy_retries_once "/nix/store/src" h
           (exit_status 0) (exit_status 1) (exit_status 0) [] eq_refl).
Defined.

(** C1, as stated, fails for a host whose file sync fails: the work of the
    host ends there, and the activation command is not attempted at all. *)
Lemma deploy_sync_failure_skips_activation :
  let h := root_host "amy.dse.in.tum.de" in
  feed (deploy "/nix/store/src" h) [exit_status 255; exit_status 0; exit_status 0]
  = ([(sync_call "/nix/store/src" h, exit_status 255)],
     Some (Raise (CalledProcessError 255))).
Proof. reflexivity. Qed.

(** The runs of [deploy], whatever the answers. *)
Lemma deploy_feed (path : string) (h : DeployHost) (answers : list CompletedProcess)
    (tr : list entry) (r : result unit) :
  feed (deploy path h) answers = (tr, Some r) -> deploy_run path h tr r.
Proof.
  unfold deploy, Host.run_local, Host.run. cbn [pbind feed].
  destruct answers as [|p0 answers]; [discriminate|].
  unfold Host.checked at 1. unfold default_check. cbn [andb].
  destruct (returncode p0 =? 0)%Z eqn:E0; cbn [negb pbind feed].
  2:{ intros [= <- <-]. apply sync_failed. now apply Z.eqb_neq. }
  apply Z.eqb_eq in E0.
  destruct answers as [|p1 answers]; [discriminate|].
  unfold Host.checked at 1. cbn [andb pbind].
  destruct (returncode p1 =? 0)%Z eqn:E1; cbn [negb pbind feed].
  { intros [= <- <-]. apply first_ok; [assumption|now apply Z.eqb_eq]. }
  apply Z.eqb_neq in E1.
  destruct answers as [|p2 answers]; [discriminate|].
  unfold Host.checked. cbn [andb].
  destruct (returncode p2 =? 0)%Z eqn:E2; cbn [negb pbind feed].
  - intros [= <- <-]. apply retry_ok; [assumption..|now apply Z.eqb_eq].
  - intros [= <- <-]. apply retry_failed; [assumption..|now apply Z.eqb_neq].
Qed.

(** ** Dispatches *)

Section Dispatch.

Context {A : Type} (o : oracle) (P : event -> Prop).

Lemma answer_history (e : event) (w : world) :
  history (answer o e w).2 = history w ++ [(e, (answer o e w).1)].
Proof. unfold answer. now destruct (o (history w) (fs w) e). Qed.

Lemma fed_refl (t : prog A) : fed t t [].
Proof. intros answers tr' r H. exact H. Qed.

Lemma fed_step (t0 : prog A) (e : event) (k : CompletedProcess -> prog A)
    (tr : list entry) (p : CompletedProcess) :
  fed t0 (Call e k) tr -> fed t0 (k p) (tr ++ [(e, p)]).
Proof.
  intros H answers tr' r Hf.
  rewrite map_app, <- !app_assoc. cbn [List.map snd app].
  apply H. cbn [feed]. now rewrite Hf.
Qed.

Lemma pool_inv_init (pool : list (prog A)) :
  Forall (calls_in P) pool -> pool_inv P [] pool pool.
Proof.
  intros H. unfold pool_inv. induction H; constructor; [|assumption].
  split; [assumption|]. exists []. split; [constructor|apply fed_refl].
Qed.

Lemma pool_inv_grow (H H' : list entry) (pool0 pool : list (prog A)) :
  pool_inv P H pool0 pool -> pool_inv P (H ++ H') pool0 pool.
Proof.
  intros Hinv. eapply Forall2_impl; [exact Hinv|].
  intros t0 t (Hc & tr & Hs & Hf).
  split; [assumption|]. exists tr. split; [now apply sublist_inserts_r|assumption].
Qed.

Lemma step_thread_inv (i : nat) (H : list entry) (pool0 pool : list (prog A))
    (w : world) :
  pool_inv P H pool0 pool ->
  exists H',
    history (step_thread o i pool w).2 = history w ++ H'
    /\ Forall (fun en => P en.1) H'
    /\ pool_inv P (H ++ H') pool0 (step_thread o i pool w).1.
Proof.
  intros Hinv. unfold step_thread.
  destruct (pool !! i) as [[a|e|e k]|] eqn:Hi;
    try (exists []; rewrite !app_nil_r; repeat split; [constructor|assumption]).
  pose proof (answer_history e w) as Hh.
  destruct (answer o e w) as [p w'] eqn:Ha. cbn [fst snd] in *.
  exists [(e, p)]. split; [assumption|].
  destruct (Forall2_lookup_r _ _ _ _ _ Hinv Hi) as (t0 & Hi0 & (He & Hk) & tr & Hs & Hf).
  split; [now repeat constructor|].
  unfold pool_inv. rewrite <- (list_insert_id pool0 i t0 Hi0).
  apply Forall2_insert; [exact (pool_inv_grow H [(e, p)] _ _ Hinv)|].
  split; [apply Hk|]. exists (tr ++ [(e, p)]).
  split; [now apply sublist_app|now apply fed_step].
Qed.

Lemma run_sched_inv (sched : list nat) (H : list entry) (pool0 pool : list (prog A))
    (w : world) :
  pool_inv P H pool0 pool ->
  exists H',
    history (run_sched o sched pool w).2 = history w ++ H'
    /\ Forall (fun en => P en.1) H'
    /\ pool_inv P (H ++ H') pool0 (run_sched o sched pool w).1.
Proof.
  revert H pool w. induction sched as [|i sched IH]; intros H pool w Hinv.
  - exists []. rewrite !app_nil_r. repeat split; [constructor|assumption].
  - cbn [run_sched].
    destruct (step_thread_inv i H pool0 pool w Hinv) as (H1 & Hh1 & HP1 & Hinv1).
    destruct (step_thread o i pool w) as [pool1 w1]. cbn [fst snd] in *.
    destruct (IH _ pool1 w1 Hinv1) as (H2 & Hh2 & HP2 & Hinv2).
    exists (H1 ++ H2). rewrite Hh2, Hh1, !app_assoc.
    repeat split; [now apply Forall_app|assumption].
Qed.

Lemma finish_feed (t : prog A) (w : world) :
  calls_in P t ->
  exists tr,
    history (finish o t w).2 = history w ++ tr
    /\ Forall (fun en => P en.1) tr
    /\ feed t (List.map snd tr) = (tr, Some (finish o t w).1).
Proof.
  revert w. induction t as [a|e|e k IH]; intros w Hc;
    try (exists []; rewrite app_nil_r; repeat split; constructor).
  destruct Hc as [He Hk]. cbn [finish].
  pose proof (answer_history e w) as Hh.
  destruct (answer o e w) as [p w']. cbn [fst snd] in *.
  destruct (IH p w' (Hk p)) as (tr & Hh' & HP & Hf).
  exists ((e, p) :: tr). rewrite Hh', Hh, <- app_assoc.
  repeat split; [now constructor|].
  cbn [List.map snd feed]. now rewrite Hf.
Qed.

Lemma join_all_inv (H : list entry) (pool0 pool : list (prog A)) (w : world) :
  pool_inv P H pool0 pool ->
  exists H',
    history (join_all o pool w).2 = history w ++ H'
    /\ Forall (fun en => P en.1) H'
    /\ Forall2
         (fun t0 r => exists answers tr,
              feed t0 answers = (tr, Some r) /\ tr `sublist_of` (H ++ H'))
         pool0 (join_all o pool w).1.
Proof.
  intros Hinv. revert H w Hinv. unfold pool_inv.
  induction pool0 as [|t0 pool0 IH] in pool |- *; intros H w Hinv.
  - apply Forall2_nil_inv_l in Hinv as ->.
    exists []. rewrite !app_nil_r. repeat split; constructor.
  - apply Forall2_cons_inv_l in Hinv as (t & pool' & (Hc & tr & Hs & Hf) & Hinv & ->).
    cbn [join_all].
    destruct (finish_feed t w Hc) as (tr1 & Hh1 & HP1 & Hf1).
    destruct (finish o t w) as [r w1]. cbn [fst snd] in *.
    destruct (IH pool' (H ++ tr1) w1 (pool_inv_grow H tr1 _ _ Hinv))
      as (H2 & Hh2 & HP2 & Hall).
    destruct (join_all o pool' w1) as [rs w2]. cbn [fst snd] in *.
    exists (tr1 ++ H2). rewrite Hh2, Hh1, !app_assoc.
    repeat split; [now apply Forall_app|].
    constructor; [|assumption].
    exists (List.map snd tr ++ List.map snd tr1), (tr ++ tr1).
    split; [now apply Hf|].
    apply sublist_inserts_r. now apply sublist_app.
Qed.

(** Whatever the schedule, a dispatch adds to the history the calls of its
    work items and nothing else, and every item runs to its end: its result
    is the one of the item given the answers that its calls got, and those
    calls stand in the history in the order in which the item issued them. *)
Lemma dispatch_runs (sched : list nat) (pool : list (prog A)) (w : world) :
  Forall (calls_in P) pool ->
  exists H,
    history (dispatch o sched pool w).2 = history w ++ H
    /\ Forall (fun en => P en.1) H
    /\ Forall2
         (fun t r => exists answers tr,
              feed t answers = (tr, Some r) /\ tr `sublist_of` H)
         pool (dispatch o sched pool w).1.
Proof.
  intros Hc. unfold dispatch.
  destruct (run_sched_inv sched [] pool pool w (pool_inv_init pool Hc))
    as (H1 & Hh1 & HP1 & Hinv1).
  destruct (run_sched o sched pool w) as [pool1 w1]. cbn [fst snd app] in *.
  destruct (join_all_inv H1 pool pool1 w1 Hinv1) as (H2 & Hh2 & HP2 & Hall).
  exists (H1 ++ H2). rewrite Hh2, Hh1, !app_assoc.
  repeat split; [now apply Forall_app|assumption].
Qed.

End Dispatch.

(** ** [deploy_nixos] *)


Lemma Forall2_Forall_left {X Y} (R : X -> Y -> Prop) (Q : X -> Prop)
    (l : list X) (k : list Y) :
  Forall2 R l k -> (forall x y, R x y -> Q x) -> Forall Q l.
Proof. induction 1; intros HQ; constructor; eauto. Qed.

Lemma run_function_history {X} (o : oracle) (sched : list nat)
    (func : DeployHost -> prog X) (hosts : list DeployHost) (check : bool)
    (w : world) :
  history (run_function o sched func hosts check w).2
  = history (dispatch o sched (List.map func hosts) w).2.
Proof.
  unfold run_function.
  destruct (dispatch o sched (List.map func hosts) w) as [outcomes w'].
  destruct (List.filter _ _); [reflexivity|]. now destruct check.
Qed.











(** ** [ipmi_powerconsumption] *)

Lemma for_each_app {X Y} (l1 l2 : list X) (acc : Y) (body : Y -> X -> M Y) (w : world) :
  for_each (l1 ++ l2) acc body w
  = match for_each l1 acc body w with
    | (Ok acc', w') => for_each l2 acc' body w'
    | (Raise e, w') => (Raise e, w')
    end.
Proof.
  revert acc w. induction l1 as [|x l1 IH]; intros acc w; [reflexivity|].
  cbn [app for_each]. unfold bind.
  destruct (body acc x w) as [[acc'|e] w']; [apply IH|reflexivity].
Qed.

Lemma for_each_map {X X' Y} (f : X -> X') (l : list X) (acc : Y)
    (body : Y -> X' -> M Y) (w : world) :
  for_each (List.map f l) acc body w = for_each l acc (fun a x => body a (f x)) w.
Proof.
  revert acc w. induction l as [|x l IH]; intros acc w; [reflexivity|].
  cbn [List.map for_each]. unfold bind.
  destruct (body acc (f x) w) as [[acc'|e] w']; [apply IH|reflexivity].
Qed.

Lemma MANUFACTURERS_dell :
  MANUFACTURERS !! "dell"
  = Some ["ryan.dse.in.tum.de"; "graham.dse.in.tum.de"; "astrid.dse.in.tum.de";
          "dan.dse.in.tum.de"; "mickey.dse.in.tum.de"].
Proof. reflexivity. Qed.

Lemma MANUFACTURERS_supermicro :
  MANUFACTURERS !! "supermicro"
  = Some ["jackson.dse.in.tum.de"; "christina.dse.in.tum.de";
          "adelaide.dse.in.tum.de"; "wilfred.dse.in.tum.de"; "river.dse.in.tum.de";
          "jack.dse.in.tum.de"; "clara.dse.in.tum.de"; "amy.dse.in.tum.de";
          "rose.dse.in.tum.de"].
Proof. reflexivity. Qed.

(** The two loops are one loop along the plan. *)
Lemma ipmi_powerconsumption_plan (o : oracle) (w : world) :
  ipmi_powerconsumption o w
  = match for_each plan (0%Z, []) (measure_planned o) w with
    | (Ok acc, w') => summary acc w'
    | (Raise e, w') => (Raise e, w')
    end.
Proof.
  unfold ipmi_powerconsumption, plan.
  rewrite MANUFACTURERS_dell, MANUFACTURERS_supermicro.
  cbn [default or_raise]. unfold bind at 1. unfold ret at 1.
  rewrite for_each_app, !for_each_map. unfold measure_planned. cbn [fst snd].
  unfold bind at 1.
  destruct (for_each _ (0%Z, []) _ w) as [[acc|e] w1]; [|reflexivity].
  unfold bind at 1. unfold ret at 1. unfold bind at 1. reflexivity.
Qed.

Lemma split_aux_cons (sep : string) (s : string) (skip : nat) (cur : string) :
  exists x l, split_aux sep skip cur s = x :: l.
Proof.
  revert skip cur. induction s as [|c s IH]; intros skip cur; [now eexists _, _|].
  cbn [split_aux]. destruct skip as [|k]; [|apply IH].
  destruct (String.prefix sep (String c s)); [now eexists _, _|apply IH].
Qed.

Lemma split_first (sep s : string) :
  index (split sep s) 0 = Some (hd "" (split sep s)).
Proof.
  unfold split. now destruct (split_aux_cons sep s 0 "") as (x & l & ->).
Qed.

(** C4, as amended: when the measurement has come to a host of the plan and
    the output of [ipmitool] for that host has no line with the label of its
    manufacturer, the parse fails with an [IndexError], which is not caught:
    the whole measurement ends with it, in the world as it is right after
    that command.  The hosts that come later in the plan are not queried and
    no total is printed. *)
Theorem unlabelled_reading_ends_measurement (o : oracle) (w wn : world)
    (pre post : list (string * (string * string))) (n cmd label : string)
    (acc : Z * list string) :
  plan = pre ++ (n, (cmd, label)) :: post ->
  for_each pre (0%Z, []) (measure_planned o) w = (Ok acc, wn) ->
  let w0 := (print (mgmt_hostname n) wn).2 in
  let pw := answer o password_call w0 in
  let res := answer o (ipmitool_call (mgmt_hostname n) (stdout pw.1) cmd) pw.2 in
  returncode pw.1 = 0%Z ->
  returncode res.1 = 0%Z ->
  List.filter (fun line => contains label line) (splitlines (stdout res.1)) = [] ->
  ipmi_powerconsumption o w = (Raise IndexError, res.2)
  /\ history res.2
     = history wn ++ [(password_call, pw.1);
                      (ipmitool_call (mgmt_hostname n) (stdout pw.1) cmd, res.1)]
  /\ console res.2 = console wn ++ [mgmt_hostname n].
Proof.
  intros Hplan Hpre w0 pw res Hpw Hres Hlines. split.
  - rewrite ipmi_powerconsumption_plan, Hplan, for_each_app, Hpre.
    cbn [for_each]. unfold bind at 1. unfold measure_planned at 1. cbn [fst snd].
    unfold measure. destruct acc as [total hosts].
    unfold bind at 1. rewrite split_first. cbn [or_raise]. unfold ret at 1.
    unfold bind at 1. change (print (mgmt_hostname n) wn) with (Ok tt, w0).
    unfold bind at 1. unfold ipmitool, ipmi_password, c_run, exec.
    unfold bind at 1. unfold bind at 1. unfold bind at 1.
    fold password_call. fold pw. destruct pw as [p w1] eqn:Epw.
    cbn [fst snd negb andb] in *. rewrite Hpw. cbn [Z.eqb negb ret].
    unfold bind at 1.
    fold (ipmitool_call (mgmt_hostname n) (stdout p) cmd). fold res.
    destruct res as [q w2] eqn:Eres. cbn [fst snd] in *. rewrite Hres.
    cbn [Z.eqb negb ret]. unfold bind at 1.
    unfold reading. rewrite Hlines. reflexivity.
  - subst res pw w0. rewrite !answer_history. cbn.
    rewrite <- app_assoc. split; [reflexivity|].
    unfold answer. cbn.
    destruct (o _ _ _) as [p f1]. cbn. now destruct (o _ _ _).
Qed.

Lemma unlabelled_reading_first_host :
  let w := initial_world ∅ [] in
  ipmi_powerconsumption mute w
  = (Raise IndexError,
     {| history :=
          [(password_call, exit_status 0);
           (ipmitool_call "ryan-mgmt.dse.in.tum.de" "" "sensor get Pwr\ Consumption",
            exit_status 0)];
        fs := ∅; cwd := []; console := ["ryan-mgmt.dse.in.tum.de"] |}).
Proof.
  intros w.
  refine (proj1 (unlabelled_reading_ends_measurement mute w w []
                   (tail plan) "ryan.dse.in.tum.de"
                   "sensor get Pwr\ Consumption" "Sensor Reading" (0%Z, [])
                   _ _ _ _ _)); reflexivity.
Defined.

(** C4, as stated, fails: in an environment whose commands print nothing,
    the parse for the first host raises, and none of the thirteen hosts
    after it is queried. *)
Lemma unlabelled_reading_aborts_siblings :
  let w' := (ipmi_powerconsumption mute (initial_world ∅ [])).2 in
  (ipmi_powerconsumption mute (initial_world ∅ [])).1 = Raise IndexError
  /\ List.map fst (history w')
     = [password_call;
        ipmitool_call "ryan-mgmt.dse.in.tum.de" "" "sensor get Pwr\ Consumption"]
  /\ length plan = 14.
Proof. vm_compute. repeat split. Qed.

Lemma answer_console (o : oracle) (e : event) (w : world) :
  console (answer o e w).2 = console w.
Proof. unfold answer. now destruct (o (history w) (fs w) e). Qed.

Lemma c_run_eq (o : oracle) (line : string) (w : world) :
  c_run o line false w
  = let a := answer o (ContextRun line false) w in
    (if (returncode a.1 =? 0)%Z then Ok a.1
     else Raise (UnexpectedExit (returncode a.1)), a.2).
Proof.
  unfold c_run, exec, bind.
  destruct (answer o (ContextRun line false) w) as [p w']. cbn [fst snd negb andb].
  now destruct (returncode p =? 0)%Z.
Qed.

(** One host is measured: two calls at most, and when the step succeeds, the
    watts of the answer are added and the short name is appended. *)
Lemma measure_spec (o : oracle) (item : string * (string * string))
    (acc : Z * list string) (w : world) (r : result (Z * list string)) (w' : world) :
  measure_planned o acc item w = (r, w') ->
  exists H lines,
    history w' = history w ++ H
    /\ console w' = console w ++ lines
    /\ Forall
         (fun en => en.1 = password_call
                    \/ exists password,
                         en.1 = ipmitool_call (mgmt_hostname item.1) password item.2.1)
         H
    /\ match r with
       | Ok acc' =>
           exists a, H = pair_calls item a
                     /\ acc' = ((acc.1 + watts item.2.2 a.2)%Z,
                                acc.2 ++ [short_name item.1])
       | Raise _ => True
       end.
Proof.
  destruct item as [n [cmd label]], acc as [total hosts].
  unfold measure_planned, measure. cbn [fst snd].
  unfold bind at 1. rewrite split_first. cbn [or_raise]. unfold ret at 1.
  unfold bind at 1. unfold print at 1.
  set (w0 := set_console _ w).
  unfold bind at 1. unfold ipmitool, ipmi_password.
  unfold bind at 1. unfold bind at 1. rewrite c_run_eq. cbn zeta.
  fold password_call.
  pose proof (answer_history o password_call w0) as Hh1.
  pose proof (answer_console o password_call w0) as Hc1.
  destruct (answer o password_call w0) as [pw w1]. cbn [fst snd] in *.
  destruct (returncode pw =? 0)%Z.
  2:{ intros [= <- <-]. exists [(password_call, pw)], [mgmt_hostname n].
      split; [assumption|]. split; [now rewrite Hc1|].
      split; [|exact I]. repeat constructor; now left. }
  unfold ret at 1. rewrite c_run_eq. cbn zeta.
  fold (ipmitool_call (mgmt_hostname n) (stdout pw) cmd).
  set (e := ipmitool_call (mgmt_hostname n) (stdout pw) cmd).
  pose proof (answer_history o e w1) as Hh2.
  pose proof (answer_console o e w1) as Hc2.
  destruct (answer o e w1) as [res w2]. cbn [fst snd] in *.
  assert (HP : Forall
                 (fun en : entry =>
                    en.1 = password_call
                    \/ exists password,
                         en.1 = ipmitool_call (mgmt_hostname n) password cmd)
                 [(password_call, pw); (e, res)]).
  { constructor; [now left|].
    constructor; [right; now exists (stdout pw)|constructor]. }
  assert (Hh : history w2 = history w ++ [(password_call, pw); (e, res)])
    by (rewrite Hh2, Hh1, <- app_assoc; reflexivity).
  destruct (returncode res =? 0)%Z.
  2:{ intros [= <- <-]. exists [(password_call, pw); (e, res)], [mgmt_hostname n].
      split; [assumption|]. split; [now rewrite Hc2, Hc1|]. now split. }
  unfold bind at 1.
  destruct (reading label (stdout res)) as [[text z]|ex] eqn:Er.
  2:{ intros [= <- <-]. exists [(password_call, pw); (e, res)], [mgmt_hostname n].
      split; [assumption|]. split; [now rewrite Hc2, Hc1|]. now split. }
  unfold bind, print, ret. intros [= <- <-].
  cbn [fst snd set_console history console].
  exists [(password_call, pw); (e, res)],
    [mgmt_hostname n; "  " +++ text +++ " Watts"; ""].
  split; [assumption|]. split.
  { rewrite Hc2, Hc1. subst w0. cbn [console set_console].
    now rewrite <- !app_assoc. }
  split; [assumption|].
  exists (pw, res). split; [reflexivity|].
  unfold watts, short_name. cbn [fst snd]. now rewrite Er.
Qed.

(** The loop along a part of the plan. *)
Lemma plan_loop_spec (o : oracle) (l : list (string * (string * string)))
    (acc : Z * list string) (w : world) (r : result (Z * list string)) (w' : world) :
  for_each l acc (measure_planned o) w = (r, w') ->
  (forall item, In item l -> In item plan) ->
  exists H lines,
    history w' = history w ++ H
    /\ console w' = console w ++ lines
    /\ Forall (fun en => measured_call en.1) H
    /\ match r with
       | Ok acc' =>
           exists answers,
             length answers = length l
             /\ H = concat (zip_with pair_calls l answers)
             /\ acc' = ((acc.1 + total_watts l answers)%Z,
                        acc.2 ++ List.map (fun item => short_name item.1) l)
       | Raise _ => True
       end.
Proof.
  revert acc w. induction l as [|x l IH]; intros acc w E Hin.
  - injection E as <- <-. exists [], []. rewrite !app_nil_r.
    repeat split; [constructor|]. exists []. repeat split.
    destruct acc. cbn. now rewrite Z.add_0_r.
  - cbn [for_each] in E. unfold bind in E.
    destruct (measure_planned o acc x w) as [[acc1|e] w1] eqn:E1;
      apply measure_spec in E1 as (H1 & lines1 & Hh1 & Hc1 & HP1 & Hr1).
    + destruct Hr1 as (a & -> & ->).
      apply IH in E as (H2 & lines2 & Hh2 & Hc2 & HP2 & Hr2);
        [|intros item Hi; apply Hin; now right].
      exists (pair_calls x a ++ H2), (lines1 ++ lines2).
      rewrite Hh2, Hh1, Hc2, Hc1, !app_assoc.
      repeat split.
      * apply Forall_app. split; [|assumption].
        eapply Forall_impl; [exact HP1|].
        intros en [Hen|(password & Hen)]; [now left|right].
        exists x, password. split; [apply Hin; now left|assumption].
      * destruct r as [acc'|]; [|exact I].
        destruct Hr2 as (answers & Hlen & -> & ->).
        exists (a :: answers). cbn [length zip_with concat fst snd List.map].
        repeat split; [now rewrite Hlen|].
        unfold total_watts. cbn [zip_with fold_right].
        now rewrite Z.add_assoc, <- app_assoc.
    + injection E as <- <-. exists H1, lines1.
      split; [assumption|]. split; [assumption|]. split; [|exact I].
      eapply Forall_impl; [exact HP1|].
      intros en [Hen|(password & Hen)]; [now left|right].
      exists x, password. split; [apply Hin; now left|assumption].
Qed.

Lemma password_call_is_not_ipmitool (host password cmd : string) :
  password_call <> ipmitool_call host password cmd.
Proof.
  unfold password_call, ipmitool_call, ipmi_password_line, ipmitool_line.
  intros H. vm_compute in H. discriminate H.
Qed.

(** No call of the measurement goes to the management console of a host of
    the group [supermicro_broken]. *)
Lemma broken_host_is_not_called (item : string * (string * string))
    (b password cmd password' cmd' : string) :
  In item plan ->
  In b (default [] (MANUFACTURERS !! "supermicro_broken")) ->
  ipmitool_call (mgmt_hostname item.1) password cmd
  <> ipmitool_call (mgmt_hostname b) password' cmd'.
Proof.
  intros Hi Hb E. vm_compute in Hi, Hb.
  repeat (destruct Hb as [<-|Hb]); [| |exact Hb];
    repeat (destruct Hi as [<-|Hi]); try exact Hi;
      vm_compute in E; discriminate E.
Qed.

Example steady_total :
  let run := ipmi_powerconsumption steady (initial_world ∅ []) in
  run.1 = Ok tt
  /\ length (history run.2) = 28
  /\ drop 42 (console run.2)
     = ["";
        "  Measured hosts: ['ryan', 'graham', 'astrid', 'dan', 'mickey', 'jackson', 'christina', 'adelaide', 'wilfred', 'river', 'jack', 'clara', 'amy', 'rose']";
        "  Total Consumption: 2670 Watts";
        ""].
Proof. vm_compute. repeat split. Qed.

(** C10: the measurement queries the hosts of the groups [dell] and
    [supermicro] and no others.  Every call is the one for the password or a
    call to the management console of a host of these two groups; no call
    goes to the console of a host of [supermicro_broken], and no such host is
    in the list of measured hosts.  When the measurement succeeds, the calls
    are the two calls for each host of the two groups, the list that is
    printed holds their short names, and the total that is printed is the sum
    of the readings in the answers to exactly these calls. *)
Theorem broken_hosts_are_not_measured (o : oracle) (w : world) :
  exists H lines,
    history (ipmi_powerconsumption o w).2 = history w ++ H
    /\ console (ipmi_powerconsumption o w).2 = console w ++ lines
    /\ Forall (fun en => measured_call en.1) H
    /\ List.map fst plan
       = default [] (MANUFACTURERS !! "dell")
         ++ default [] (MANUFACTURERS !! "supermicro")
    /\ Forall
         (fun b =>
            Forall
              (fun en => forall password cmd,
                   en.1 <> ipmitool_call (mgmt_hostname b) password cmd)
              H
            /\ ~ In (short_name b) (List.map (fun item => short_name item.1) plan))
         (default [] (MANUFACTURERS !! "supermicro_broken"))
    /\ match (ipmi_powerconsumption o w).1 with
       | Ok _ =>
           exists answers lines',
             length answers = length plan
             /\ H = concat (zip_with pair_calls plan answers)
             /\ lines
                = lines'
                  ++ ["";
                      "  Measured hosts: "
                        +++ repr_list (List.map (fun item => short_name item.1) plan);
                      "  Total Consumption: " +++ pretty (total_watts plan answers)
                        +++ " Watts";
                      ""]
       | Raise _ => True
       end.
Proof.
  rewrite ipmi_powerconsumption_plan.
  destruct (for_each plan (0%Z, []) (measure_planned o) w) as [r w1] eqn:E.
  apply plan_loop_spec in E as (H & lines & Hh & Hc & HP & Hr); [|auto].
  assert (Hbroken :
            Forall
              (fun b =>
                 Forall
                   (fun en : entry => forall password cmd,
                        en.1 <> ipmitool_call (mgmt_hostname b) password cmd)
                   H
                 /\ ~ In (short_name b) (List.map (fun item => short_name item.1) plan))
              (default [] (MANUFACTURERS !! "supermicro_broken"))).
  { apply List.Forall_forall. intros b Hb. split.
    - eapply Forall_impl; [exact HP|].
      intros en [Hen|(item & pw & Hi & Hen)] password cmd; rewrite Hen.
      + apply password_call_is_not_ipmitool.
      + now apply broken_host_is_not_called.
    - vm_compute in Hb.
      repeat (destruct Hb as [<-|Hb]); [| |destruct Hb];
        vm_compute; intros Hi;
        repeat (destruct Hi as [Hi|Hi]; [discriminate Hi|]); exact Hi. }
  destruct r as [[total hosts]|e].
  - destruct Hr as (answers & Hlen & -> & [= -> ->]).
    unfold summary, bind, print, ret.
    cbn [fst snd set_console history console].
    eexists (concat (zip_with pair_calls plan answers)), (lines ++ _).
    split; [assumption|]. split; [rewrite Hc, <- !app_assoc; reflexivity|].
    split; [assumption|]. split; [reflexivity|]. split; [assumption|].
    exists answers, lines. split; [assumption|]. split; [reflexivity|].
    cbn [app fst snd]. rewrite Z.add_0_l. reflexivity.
  - exists H, lines. repeat split; assumption.
Qed.

(** ** [get_lldp_neighbors] *)

Lemma silent_ret {X} (x : X) : silent (ret x).
Proof. intros w. reflexivity. Qed.

Lemma silent_bind {X Y} (m : M X) (k : X -> M Y) :
  silent m -> (forall x, silent (k x)) -> silent (bind m k).
Proof.
  intros Hm Hk w. unfold bind. specialize (Hm w).
  destruct (m w) as [[x|e] w1]; cbn [snd] in *; [|assumption].
  now rewrite Hk.
Qed.









(** ** Staging directories *)

(** Whatever the body does and however it ends, nothing is left at or below
    the temporary directory. *)
Lemma TemporaryDirectory_absent {X} (tmp : string) (body : string -> M X) (w : world) :
  absent tmp (fs (Os.TemporaryDirectory tmp body w).2).
Proof.
  unfold Os.TemporaryDirectory.
  destruct (body tmp _) as [r w2]. cbn [snd set_fs fs].
  intros p v Hp. unfold Os.remove_tree in Hp.
  apply map_lookup_filter_Some in Hp as [_ Hp]. exact Hp.
Qed.

Lemma keeps_files_info (HAS_TTY : bool) (text : string) : keeps_files (info HAS_TTY text).
Proof. intros w. unfold info, color_text. now destruct HAS_TTY. Qed.

(** C8: the two tasks that stage keys in a temporary directory leave nothing
    at or below that directory, whatever the commands do and however the
    task ends, by its end or by an exception. *)
Theorem staging_directory_is_removed (ROOT : string) (HAS_TTY : bool)
    (json_dumps : string -> string) (o : oracle)
    (tmp host dhcp_interface : string) (w : world) :
  absent tmp (fs (generate_ssh_cert ROOT json_dumps o tmp host w).2)
  /\ absent tmp (fs (reformat_install_nixos ROOT HAS_TTY o tmp host dhcp_interface w).2).
Proof.
  split.
  - unfold generate_ssh_cert. apply TemporaryDirectory_absent.
  - unfold reformat_install_nixos. unfold bind at 1.
    pose proof (TemporaryDirectory_absent tmp
                  (fun tmpdir =>
                     decrypt_host_keys ROOT o host tmpdir ;;;
                     _ <- c_run o
                       (nixos_remote_pxe +++ " --flake .#" +++ host
                          +++ " --netboot-image-flake 'github:nix-community/nixos-images#netboot-installer-nixos-unstable' --dhcp-interface "
                          +++ dhcp_interface +++ " --extra-files " +++ tmpdir
                          +++ " --no-reboot --pause-after-completion")
                       false ;;
                     ret tt) w) as Ha.
    destruct (Os.TemporaryDirectory tmp _ w) as [[[]|e] w1]; cbn [snd] in *;
      [|assumption].
    unfold bind.
    pose proof (keeps_files_info HAS_TTY "Device information:" w1) as K1.
    destruct (info HAS_TTY "Device information:" w1) as [[[]|e] w2];
      cbn [snd] in *; [|now rewrite K1].
    rewrite keeps_files_info. now rewrite K1.
Qed.

(** A run of [generate_ssh_cert] that fails half way: the key that was
    staged is gone with the directory. *)
Example generate_ssh_cert_failing_run :
  let run :=
    generate_ssh_cert "/repo" (fun s => s) (leaves_key "/tmp/tmpq1") "/tmp/tmpq1"
      "amy" (initial_world ∅ []) in
  run.1 = Raise (FileNotFoundError "/tmp/tmpq1/etc/ssh/ssh_host_rsa_key")
  /\ length (history run.2) = 3
  /\ fs run.2 = ∅.
Proof. vm_compute. repeat split. Qed.

(** * Properties of the other tasks *)

(** ** Splitting at one character *)

Lemma sepless_cons (c x : ascii) (s : string) :
  sepless c (String x s) <-> x <> c /\ sepless c s.
Proof.
  unfold sepless. cbn [contains]. rewrite prefix_char.
  destruct (ascii_dec c x) as [->|Hne]; cbn [orb].
  - split; [discriminate|]. intros [H _]. congruence.
  - split; [intros H; split; [congruence|exact H]|now intros [_ H]].
Qed.

Lemma sepless_append (c : ascii) (a b : string) :
  sepless c a -> sepless c b -> sepless c (a +++ b).
Proof.
  induction a as [|x a IH]; intros Ha Hb; [exact Hb|].
  apply sepless_cons in Ha as [Hx Ha].
  change (String x a +++ b) with (String x (a +++ b)).
  apply sepless_cons. split; [assumption|now apply IH].
Qed.

Lemma split_char_step (c x : ascii) (cur s : string) :
  x <> c ->
  split_aux (String c "") 0 cur (String x s)
  = split_aux (String c "") 0 (cur +++ String x "") s.
Proof.
  intros Hx. cbn [split_aux]. rewrite prefix_char.
  destruct (ascii_dec c x); [congruence|reflexivity].
Qed.

Lemma split_char_sep (c : ascii) (cur s : string) :
  split_aux (String c "") 0 cur (String c s)
  = cur :: split_aux (String c "") 0 "" s.
Proof.
  cbn [split_aux]. rewrite prefix_char.
  destruct (ascii_dec c c); [reflexivity|congruence].
Qed.

(** The fields of a joined list are the list. *)
Lemma split_char_join (c : ascii) (cur l : string) (ls : list string) :
  sepless c l -> Forall (sepless c) ls ->
  split_aux (String c "") 0 cur (join (String c "") (l :: ls)) = (cur +++ l) :: ls.
Proof.
  intros Hl Hls. revert cur l Hl.
  induction Hls as [|l' ls Hl' Hls IH]; intros cur l Hl.
  - change (join (String c "") [l]) with l. revert cur.
    induction l as [|x l IHl]; intros cur.
    + now rewrite append_nil_r.
    + apply sepless_cons in Hl as [Hx Hl].
      rewrite split_char_step, IHl, append_assoc by assumption. reflexivity.
  - change (join (String c "") (l :: l' :: ls))
      with (l +++ String c "" +++ join (String c "") (l' :: ls)).
    revert cur. induction l as [|x l IHl]; intros cur.
    + change ("" +++ String c "" +++ join (String c "") (l' :: ls))
        with (String c (join (String c "") (l' :: ls))).
      rewrite split_char_sep, (IH "" l' Hl'), append_nil_r. reflexivity.
    + apply sepless_cons in Hl as [Hx Hl].
      change (String x l +++ String c "" +++ join (String c "") (l' :: ls))
        with (String x (l +++ String c "" +++ join (String c "") (l' :: ls))).
      rewrite split_char_step, IHl, append_assoc by assumption. reflexivity.
Qed.

(** The fields of a split hold no separator. *)
Lemma split_char_sepless (c : ascii) (s cur : string) :
  sepless c cur -> Forall (sepless c) (split_aux (String c "") 0 cur s).
Proof.
  revert cur. induction s as [|x s IH]; intros cur Hcur.
  - now repeat constructor.
  - destruct (ascii_dec x c) as [->|Hx].
    + rewrite split_char_sep. constructor; [assumption|]. now apply IH.
    + rewrite split_char_step by assumption. apply IH.
      apply sepless_append; [assumption|].
      apply sepless_cons. split; [assumption|reflexivity].
Qed.

(** Joining the fields of a split gives the text back. *)
Lemma join_split_char (c : ascii) (s cur : string) :
  join (String c "") (split_aux (String c "") 0 cur s) = cur +++ s.
Proof.
  revert cur. induction s as [|x s IH]; intros cur.
  { cbn [split_aux]. change (join (String c "") [cur]) with cur.
    now rewrite append_nil_r. }
  destruct (ascii_dec x c) as [->|Hx].
  - rewrite split_char_sep.
    destruct (split_aux_cons (String c "") s 0 "") as (y & l & E).
    specialize (IH ""). rewrite E in *.
    change (join (String c "") (cur :: y :: l))
      with (cur +++ String c "" +++ join (String c "") (y :: l)).
    now rewrite IH.
  - rewrite split_char_step, IH, append_assoc by assumption. reflexivity.
Qed.

(** ** [get_hosts] *)

(** X1: a list of host names that hold no comma, joined with commas, is
    taken apart again into the same names, in the same order, each as a host
    of the user [root]. *)
Theorem get_hosts_of_joined (names : list string) :
  names <> [] -> Forall (sepless ",") names ->
  get_hosts (join "," names) = List.map root_host names.
Proof.
  intros Hne Hnames. destruct names as [|n names]; [congruence|].
  apply Forall_cons in Hnames as [Hn Hnames].
  unfold get_hosts, split.
  now rewrite (split_char_join "," "" n names Hn Hnames).
Qed.

Lemma get_hosts_of_two :
  get_hosts "clara.r,donna.r" = [root_host "clara.r"; root_host "donna.r"].
Proof.
  apply (get_hosts_of_joined ["clara.r"; "donna.r"]); [discriminate|].
  repeat constructor.
Defined.

(** X2: whatever the text, [get_hosts] gives at least one host, also for
    the empty text; the host names hold no comma, their join with commas is
    the text, and every host has the user [root]. *)
Theorem get_hosts_never_empty (hosts : string) :
  get_hosts hosts <> []
  /\ join "," (List.map host (get_hosts hosts)) = hosts
  /\ Forall (fun h => sepless "," (host h) /\ user h = Some "root") (get_hosts hosts).
Proof.
  unfold get_hosts, split.
  pose proof (join_split_char "," hosts "") as Hj.
  pose proof (split_char_sepless "," hosts "" eq_refl) as Hs.
  destruct (split_aux_cons "," hosts 0 "") as (n & names & E).
  change (String "," "") with "," in *. rewrite E in *.
  split; [discriminate|]. split.
  - rewrite List.map_map. cbn [root_host host]. now rewrite List.map_id.
  - apply Forall_map. eapply Forall_impl; [exact Hs|]. now intros x Hx.
Qed.

(** ** [mgmt_hostname] on every text *)

Lemma length_append (a b : string) :
  String.length (a +++ b) = String.length a + String.length b.
Proof. induction a as [|x a IH]; simpl; [reflexivity|now rewrite IH]. Qed.

Lemma append_inj_r (a b x : string) : a +++ x = b +++ x -> a = b.
Proof.
  revert b. induction a as [|c a IH]; intros [|d b] E.
  - reflexivity.
  - apply (f_equal String.length) in E.
    rewrite (length_append (String d b)) in E. simpl in E. lia.
  - apply (f_equal String.length) in E.
    rewrite (length_append (String c a)) in E. simpl in E. lia.
  - change (String c (a +++ x) = String d (b +++ x)) in E.
    injection E as -> E. f_equal. now apply IH.
Qed.

(** The labels of the management host name. *)
Lemma split_mgmt_hostname (s : string) :
  split "." (mgmt_hostname s)
  = match split "." s with
    | [] => []
    | l0 :: ls => (l0 +++ "-mgmt") :: ls
    end.
Proof.
  unfold mgmt_hostname.
  pose proof (split_char_sepless "." s "" eq_refl) as Hs.
  unfold split in *. change (String "." "") with "." in *.
  destruct (split_aux_cons "." s 0 "") as (l0 & ls & E). rewrite E in *.
  apply Forall_cons in Hs as [H0 Hls].
  apply (split_char_join "." "" (l0 +++ "-mgmt") ls); [|assumption].
  now apply sepless_append.
Qed.

(** X3: two different host names never have the same management host
    name. *)
Theorem mgmt_hostname_injective (s t : string) :
  mgmt_hostname s = mgmt_hostname t -> s = t.
Proof.
  intros E. apply (f_equal (split ".")) in E.
  rewrite !split_mgmt_hostname in E.
  pose proof (join_split_char "." s "") as Hs.
  pose proof (join_split_char "." t "") as Ht.
  unfold split in E. change (String "." "") with "." in *.
  destruct (split_aux_cons "." s 0 "") as (a & la & Ea).
  destruct (split_aux_cons "." t 0 "") as (b & lb & Eb).
  rewrite Ea, Eb in *. injection E as E ->.
  apply append_inj_r in E as ->.
  change ("" +++ s) with s in Hs. change ("" +++ t) with t in Ht. congruence.
Qed.

Lemma mgmt_hostname_injective_sample :
  mgmt_hostname "ryan.dse.in.tum.de" = mgmt_hostname ("ryan" +++ ".dse.in.tum.de")
  /\ "ryan.dse.in.tum.de" = "ryan" +++ ".dse.in.tum.de".
Proof.
  assert (E : mgmt_hostname "ryan.dse.in.tum.de"
              = mgmt_hostname ("ryan" +++ ".dse.in.tum.de")) by reflexivity.
  split; [exact E|].
  exact (mgmt_hostname_injective "ryan.dse.in.tum.de" ("ryan" +++ ".dse.in.tum.de") E).
Defined.

(** ** [deploy] and the meta data of a host *)

(** X4: the work for a host depends on its name, its user and on four keys
    of its meta data, [flake_path], [flake_attr], [target_host] and
    [target_user], and on nothing else: two hosts that agree on these have
    the same work.  A key such as [config_dir] changes nothing. *)
Theorem deploy_reads_four_keys (path : string) (h h' : DeployHost) :
  host h = host h' -> user h = user h' ->
  (forall k, In k deploy_keys -> meta h !! k = meta h' !! k) ->
  deploy path h = deploy path h'.
Proof.
  intros Hh Hu Hm.
  assert (E1 : meta h !! "flake_path" = meta h' !! "flake_path")
    by (apply Hm; cbn; auto).
  assert (E2 : meta h !! "flake_attr" = meta h' !! "flake_attr")
    by (apply Hm; cbn; auto).
  assert (E3 : meta h !! "target_host" = meta h' !! "target_host")
    by (apply Hm; cbn; auto).
  assert (E4 : meta h !! "target_user" = meta h' !! "target_user")
    by (apply Hm; cbn; auto).
  unfold deploy, Host.run_local, Host.run, rsync_line, switch_cmd.
  now rewrite Hh, Hu, E1, E2, E3, E4.
Qed.

Lemma deploy_ruby_ignores_config_dir :
  let plain :=
    {| host := host ruby_host; user := user ruby_host;
       meta := delete "config_dir" (meta ruby_host) |} in
  meta ruby_host !! "config_dir" = Some "/var/lib/nixos-config"
  /\ meta plain !! "config_dir" = None
  /\ deploy "/nix/store/src" ruby_host = deploy "/nix/store/src" plain.
Proof.
  intros plain. split; [reflexivity|]. split; [reflexivity|].
  apply (deploy_reads_four_keys "/nix/store/src" ruby_host plain);
    [reflexivity|reflexivity|].
  intros k [<-|[<-|[<-|[<-|[]]]]]; reflexivity.
Defined.

Example deploy_ruby_run :
  feed (deploy "/nix/store/src" ruby_host) [exit_status 0; exit_status 0]
  = ([(HostRunLocal "graham.dse.in.tum.de"
         (Shell "rsync --checksum -vaF --delete -e ssh /nix/store/src/ root@graham.dse.in.tum.de:/etc/nixos")
         true,
       exit_status 0);
      (HostRun "graham.dse.in.tum.de"
         (Argv ["nixos-rebuild"; "switch"; "--fast"; "--option";
                "accept-flake-config"; "true"; "--flake"; "/etc/nixos#ruby";
                "--option"; "keep-going"; "true";
                "--target-host"; "root@ruby.r"])
         false,
       exit_status 0)],
     Some (Ok tt)).
Proof. reflexivity. Qed.

(** ** The outcome of [deploy_nixos] *)

Lemma calls_in_any {X} (t : prog X) : calls_in (fun _ => True) t.
Proof. induction t as [a|e|e k IH]; cbn; auto. Qed.

Lemma filter_nil_Forall {X} (f : X -> bool) (l : list X) :
  List.filter f l = [] -> Forall (fun x => f x = false) l.
Proof.
  induction l as [|x l IH]; cbn; [constructor|].
  destruct (f x) eqn:E; [discriminate|]. intros H. constructor; auto.
Qed.

(** A checked dispatch that returns has no failed host. *)
Lemma run_function_ok {X} (o : oracle) (sched : list nat)
    (func : DeployHost -> prog X) (hosts : list DeployHost) (w : world)
    (results : list (HostResult X)) (w' : world) :
  run_function o sched func hosts true w = (Ok results, w') ->
  Forall (fun r => is_raise r = false) (dispatch o sched (List.map func hosts) w).1
  /\ w' = (dispatch o sched (List.map func hosts) w).2.
Proof.
  unfold run_function.
  destruct (dispatch_runs o (fun _ => True) sched (List.map func hosts) w)
    as (H & _ & _ & Hall).
  { apply List.Forall_forall. intros t _. apply calls_in_any. }
  apply Forall2_length in Hall. rewrite length_map in Hall.
  destruct (dispatch o sched (List.map func hosts) w) as [outcomes w1].
  cbn [fst snd] in *.
  destruct (List.filter _ _) eqn:F; [|discriminate].
  intros [= <- <-]. split; [|reflexivity].
  apply filter_nil_Forall in F. clear - F Hall.
  revert outcomes Hall F. induction hosts as [|h hosts IH]; intros [|r outcomes] Hl F;
    try discriminate; [constructor|].
  cbn in F. apply Forall_cons in F as [Hr F].
  constructor; [exact Hr|]. apply IH; [now injection Hl|exact F].
Qed.

Lemma deploy_run_activated (path : string) (h : DeployHost) (tr : list entry) :
  deploy_run path h tr (Ok tt) -> activated h tr.
Proof.
  intros Hrun. inversion Hrun as [|p0 p1 ? H1|p0 p1 p2 ? ? H2|]; subst.
  - exists [(sync_call path h, p0)], false, p1. now split.
  - exists [(sync_call path h, p0); (switch_call h false, p1)], true, p2. now split.
Qed.

(** X5: when a deployment returns without an exception, the flake was
    resolved and, on every host, the file sync returned zero and the last
    activation that was attempted returned zero. *)
Theorem deploy_nixos_ok_all_activated (json_path : string -> result string)
    (o : oracle) (sched : list nat) (hosts : list DeployHost) (w : world) :
  (deploy_nixos json_path o sched hosts w).1 = Ok tt ->
  exists p path H,
    history (deploy_nixos json_path o sched hosts w).2
    = history w ++ (metadata_call, p) :: H
    /\ returncode p = 0%Z
    /\ json_path (stdout p) = Ok path
    /\ Forall
         (fun h => exists tr,
              deploy_run path h tr (Ok tt)
              /\ tr `sublist_of` H
              /\ activated h tr)
         hosts.
Proof.
  destruct (deploy_nixos json_path o sched hosts w) as [r w'] eqn:E.
  cbn [fst snd]. intros ->.
  unfold deploy_nixos, subprocess_run, exec in E. unfold bind at 1 in E.
  unfold bind at 1 in E. fold metadata_call in E.
  pose proof (answer_history o metadata_call w) as Hh.
  destruct (answer o metadata_call w) as [p w1]. cbn [fst snd] in Hh.
  unfold checked in E. cbn [andb] in E.
  destruct (returncode p =? 0)%Z eqn:Hp; cbn [negb raise ret] in E;
    [|discriminate E].
  unfold bind at 1 in E.
  destruct (json_path (stdout p)) as [path|e] eqn:Hj; [|discriminate E].
  unfold bind at 1 in E.
  destruct (run_function o sched (deploy path) hosts default_check w1)
    as [[rs|e] w2] eqn:Er; [|discriminate E].
  injection E as <-.
  apply run_function_ok in Er as [Hok ->].
  destruct (dispatch_runs o (fun _ => True) sched (List.map (deploy path) hosts) w1)
    as (H & HH & _ & Hall).
  { apply List.Forall_forall. intros t _. apply calls_in_any. }
  exists p, path, H.
  split; [rewrite HH, Hh, <- app_assoc; reflexivity|].
  split; [now apply Z.eqb_eq|]. split; [exact Hj|].
  apply Forall2_fmap_l in Hall. clear HH.
  revert Hall Hok. generalize (dispatch o sched (List.map (deploy path) hosts) w1).1.
  intros outs Hall Hok.
  induction Hall as [|h r hs outs (answers & tr & Hf & Hs) Hall IH];
    [constructor|].
  apply Forall_cons in Hok as [Hr Hok]. constructor; [|now apply IH].
  destruct r as [[]|e]; [|discriminate Hr].
  exists tr. pose proof (deploy_feed _ _ _ _ _ Hf) as Hrun.
  repeat split; [assumption..|]. exact (deploy_run_activated _ _ _ Hrun).
Qed.

Lemma deploy_nixos_two_hosts_ok :
  let amy := root_host "amy.dse.in.tum.de" in
  let bill := root_host "bill.dse.in.tum.de" in
  let run :=
    deploy_nixos (fun _ => Ok "/nix/store/src")
      (first_attempt_fails "amy.dse.in.tum.de") [1; 0; 0] [amy; bill]
      (initial_world ∅ []) in
  run.1 = Ok tt
  /\ exists p path H,
       history run.2 = [] ++ (metadata_call, p) :: H
       /\ returncode p = 0%Z
       /\ Ok (A := string) "/nix/store/src" = Ok path
       /\ Forall
            (fun h => exists tr,
                 deploy_run path h tr (Ok tt)
                 /\ tr `sublist_of` H
                 /\ activated h tr)
            [amy; bill].
Proof.
  intros amy bill run.
  assert (Hok : run.1 = Ok tt) by (vm_compute; reflexivity).
  split; [exact Hok|].
  exact (deploy_nixos_ok_all_activated (fun _ => Ok "/nix/store/src")
           (first_attempt_fails "amy.dse.in.tum.de") [1; 0; 0] [amy; bill]
           (initial_world ∅ []) Hok).
Defined.

(** ** Work items in sequence *)

(** The run of a work item that is followed by another: the second goes on
    with the answers that the first has left. *)
Lemma feed_pbind {X Y} (m : prog X) (f : X -> prog Y) (answers : list CompletedProcess) :
  feed (pbind m f) answers
  = match feed m answers with
    | (tr, Some (Ok a)) =>
        let '(tr', r) := feed (f a) (drop (length tr) answers) in (tr ++ tr', r)
    | (tr, Some (Raise e)) => (tr, Some (Raise e))
    | (tr, None) => (tr, None)
    end.
Proof.
  revert answers. induction m as [a|e|e k IH]; intros answers.
  - cbn [pbind feed length]. rewrite drop_0. now destruct (feed (f a) answers).
  - reflexivity.
  - cbn [pbind feed]. destruct answers as [|p answers]; [reflexivity|].
    rewrite IH. destruct (feed (k p) answers) as [tr [[a|e']|]]; [|reflexivity..].
    cbn [length drop]. now destruct (feed (f a) (drop (length tr) answers)).
Qed.

Lemma feed_pbind_ok {X Y} (m : prog X) (f : X -> prog Y)
    (answers : list CompletedProcess) (tr : list entry) (y : Y) :
  feed (pbind m f) answers = (tr, Some (Ok y)) ->
  exists tr1 a tr2,
    feed m answers = (tr1, Some (Ok a))
    /\ feed (f a) (drop (length tr1) answers) = (tr2, Some (Ok y))
    /\ tr = tr1 ++ tr2.
Proof.
  rewrite feed_pbind.
  destruct (feed m answers) as [tr1 [[a|e]|]]; [|discriminate..].
  destruct (feed (f a) (drop (length tr1) answers)) as [tr2 r] eqn:E.
  intros [= <- ->]. now exists tr1, a, tr2.
Qed.

(** A loop whose body appends one entry to a list. *)
Lemma feed_for_each_appends {X} (body : list string -> X -> prog (list string))
    (good : string -> Prop) :
  (forall acc x answers tr acc',
      feed (body acc x) answers = (tr, Some (Ok acc')) ->
      exists d, acc' = acc ++ [d] /\ good d) ->
  forall l acc answers tr acc',
    feed (Host.for_each l acc body) answers = (tr, Some (Ok acc')) ->
    exists added,
      acc' = acc ++ added /\ length added = length l /\ Forall good added.
Proof.
  intros Hbody l. induction l as [|x l IH]; intros acc answers tr acc' E.
  - injection E as _ <-. exists []. rewrite app_nil_r. repeat split. constructor.
  - cbn [Host.for_each] in E.
    apply feed_pbind_ok in E as (tr1 & acc1 & tr2 & E1 & E2 & _).
    apply Hbody in E1 as (d & -> & Hd).
    apply IH in E2 as (added & -> & Hlen & Hall).
    exists (d :: added). rewrite <- app_assoc. cbn [app length].
    repeat split; [now rewrite Hlen|now constructor].
Qed.

(** ** [get_slots] and [doc_cards] *)

(** X6: when [get_slots] returns, it has asked [dmidecode] first.  When
    that failed, it has asked nothing else and returns the empty list; when
    it did not, the list has one entry for every block of a slot in the
    output, and no entry is the empty text: a slot without a device has the
    entry [No device/PCI ID.]. *)
Theorem get_slots_one_entry_per_slot (h : DeployHost) (answers : list CompletedProcess)
    (tr : list entry) (ret : list string) :
  feed (get_slots h) answers = (tr, Some (Ok ret)) ->
  exists p0 tr',
    tr = (dmidecode_call h, p0) :: tr'
    /\ if (returncode p0 =? 0)%Z
       then length ret = length (split "System Slot Information" (stdout p0)) - 1
            /\ Forall (fun d => d <> "") ret
       else ret = [] /\ tr' = [].
Proof.
  unfold get_slots, Host.run. cbn [pbind feed]. fold (dmidecode_call h).
  destruct answers as [|p0 answers]; [discriminate|].
  unfold Host.checked at 1. cbn [andb pbind].
  destruct (returncode p0 =? 0)%Z eqn:Hrc; cbn [negb].
  2:{ cbn [feed]. intros [= <- <-]. exists p0, []. now rewrite Hrc. }
  destruct (feed _ answers) as [tr' r] eqn:E. intros [= <- ->].
  exists p0, tr'. rewrite Hrc. split; [reflexivity|].
  eapply (feed_for_each_appends _ (fun d => d <> "")) in E.
  - destruct E as (added & -> & Hlen & Hall). cbn [app].
    split; [|assumption]. rewrite Hlen.
    now destruct (split "System Slot Information" (stdout p0)); cbn; lia.
  - clear. intros acc slot answers tr acc' E.
    apply feed_pbind_ok in E as (tr1 & description & tr2 & _ & E2 & _).
    destruct (String.length description =? 0) eqn:Hl;
      injection E2 as _ <-; eexists; (split; [reflexivity|]).
    + discriminate.
    + intros ->. discriminate Hl.
Qed.

Lemma get_slots_two_slots :
  let h := root_host "amy.dse.in.tum.de" in
  let dmi :=
    {| returncode := 0;
       stdout := "Handle 0x0900" +++ nl +++ "System Slot Information" +++ nl
                 +++ "  Current Usage: In Use" +++ nl
                 +++ "  Bus Address: 0000:3b:00.0" +++ nl
                 +++ "System Slot Information" +++ nl
                 +++ "  Current Usage: Available" +++ nl |} in
  let lspci :=
    {| returncode := 0;
       stdout := "3b:00.0 " +++ dq +++ "Ethernet controller" +++ dq +++ " " +++ dq
                 +++ "Intel" +++ dq +++ nl |} in
  feed (get_slots h) [dmi; lspci]
  = ([(dmidecode_call h, dmi);
      (HostRun "amy.dse.in.tum.de"
         (Shell ("nix-shell -p 'pciutils' --run " +++ dq
                   +++ "lspci -m -s 0000:3b:00.0" +++ dq))
         true,
       lspci)],
     Some (Ok ["3b:00.0, Ethernet controller, Intel"; "No device/PCI ID."]))
  /\ length ["3b:00.0, Ethernet controller, Intel"; "No device/PCI ID."]
     = length (split "System Slot Information" (stdout dmi)) - 1.
Proof.
  intros h dmi lspci.
  assert (E : feed (get_slots h) [dmi; lspci]
              = ([(dmidecode_call h, dmi);
                  (HostRun "amy.dse.in.tum.de"
                     (Shell ("nix-shell -p 'pciutils' --run " +++ dq
                               +++ "lspci -m -s 0000:3b:00.0" +++ dq))
                     true,
                   lspci)],
                 Some (Ok ["3b:00.0, Ethernet controller, Intel"; "No device/PCI ID."])))
    by (vm_compute; reflexivity).
  split; [exact E|].
  destruct (get_slots_one_entry_per_slot h [dmi; lspci] _ _ E)
    as (p0 & tr' & [= <- <-] & Hret).
  exact (proj1 Hret).
Defined.


Lemma paired_nil (n : nat) (lines : list string) :
  paired [] n lines = errors_only lines.
Proof.
  revert n. induction lines as [|line lines IH]; intros n; [reflexivity|].
  cbn [paired errors_only]. destruct (mark_line line) as [shown [|]].
  - rewrite IH. now destruct n.
  - now rewrite IH.
Qed.

Lemma render_cards_section (h : DeployHost) (ds : list string) (inxi_stdout : string) :
  render_cards h (rev ds) inxi_stdout
  = Done ("### " +++ host h +++ " " +++ nl +++ nl
            +++ paired ds 0 (splitlines inxi_stdout) +++ " " +++ nl +++ nl).
Proof.
  unfold render_cards.
  destruct (doc_lines_paired ds (splitlines inxi_stdout) "" 0) as [rest H].
  rewrite drop_0 in H. now rewrite H.
Qed.

(** X7: on a host where [dmidecode] fails and [inxi] does not, [doc_cards]
    runs these two commands and nothing else, raises nothing, and returns a
    section in which every line of a slot is followed by the marker
    [Error]. *)
Theorem doc_cards_without_dmidecode (h : DeployHost) (p0 p1 : CompletedProcess)
    (rest : list CompletedProcess) :
  returncode p0 <> 0%Z -> returncode p1 = 0%Z ->
  feed (doc_cards h) (p0 :: p1 :: rest)
  = ([(dmidecode_call h, p0); (inxi_call h, p1)],
     Some (Ok ("### " +++ host h +++ " " +++ nl +++ nl
                 +++ errors_only (splitlines (stdout p1)) +++ " " +++ nl +++ nl))).
Proof.
  intros H0 H1. apply Z.eqb_neq in H0. apply Z.eqb_eq in H1.
  unfold doc_cards, get_slots, Host.run. cbn [pbind feed].
  unfold Host.checked at 1. cbn [andb pbind]. rewrite H0. cbn [negb pbind feed].
  unfold Host.checked at 1. rewrite H1. cbn [negb andb default_check pbind].
  rewrite render_cards_section, paired_nil. reflexivity.
Qed.

Lemma doc_cards_without_dmidecode_amy :
  let h := root_host "amy.dse.in.tum.de" in
  let p0 := {| returncode := 1; stdout := "" |} in
  let p1 := {| returncode := 0;
               stdout := "PCI Slots:" +++ nl +++ "  Slot: 1 status: In Use" +++ nl |} in
  feed (doc_cards h) [p0; p1]
  = ([(dmidecode_call h, p0); (inxi_call h, p1)],
     Some (Ok ("### amy.dse.in.tum.de " +++ nl +++ nl
                 +++ "PCI Slots:   " +++ nl
                 +++ "- ❌  Slot: 1 status: In Use   " +++ nl
                 +++ "Error" +++ nl
                 +++ " " +++ nl +++ nl))).
Proof.
  intros h p0 p1.
  exact (doc_cards_without_dmidecode h p0 p1 [] ltac:(discriminate) eq_refl).
Defined.

Lemma paired_surplus (ds extra : list string) (n : nat) (lines : list string) :
  n + status_lines lines <= length ds ->
  paired (ds ++ extra) n lines = paired ds n lines.
Proof.
  revert n. induction lines as [|line lines IH]; intros n; [reflexivity|].
  unfold status_lines. cbn [paired List.filter].
  destruct (mark_line line) as [shown [|]]; cbn [snd length]; intros Hn.
  - rewrite IH by (unfold status_lines; lia).
    rewrite nth_error_app1 by lia. reflexivity.
  - now rewrite IH.
Qed.

(** X8: descriptions that are left when the lines of the slots are used up
    are dropped: when [inxi] shows no more lines of slots than there are
    descriptions in [ds], any further descriptions after those of [ds]
    change nothing in the section. *)
Theorem render_cards_drops_surplus (h : DeployHost) (ds extra : list string)
    (inxi_stdout : string) :
  status_lines (splitlines inxi_stdout) <= length ds ->
  render_cards h (rev (ds ++ extra)) inxi_stdout = render_cards h (rev ds) inxi_stdout.
Proof.
  intros Hn. rewrite !render_cards_section.
  now rewrite paired_surplus by (cbn; lia).
Qed.

Lemma render_cards_drops_surplus_amy :
  render_cards (root_host "amy") (rev (["NIC"] ++ ["GPU"; "NVMe"]))
    ("PCI Slots:" +++ nl +++ "  Slot: 1 status: In Use" +++ nl)
  = render_cards (root_host "amy") (rev ["NIC"])
      ("PCI Slots:" +++ nl +++ "  Slot: 1 status: In Use" +++ nl).
Proof.
  apply render_cards_drops_surplus. vm_compute. lia.
Defined.


(** ** Plans *)


Lemma Forall_removelast {X} (Q : X -> Prop) (l : list X) :
  Forall Q l -> Forall Q (removelast l).
Proof.
  induction 1 as [|x l Hx Hl IH]; [constructor|].
  cbn [removelast]. destruct l; [constructor|]. now constructor.
Qed.

Lemma completed_fail_fast (plan : list event) (H : list entry) :
  completed plan H -> fail_fast plan H.
Proof.
  intros [<- Hz]. split; [reflexivity|now apply Forall_removelast].
Qed.


















(** A run of [reformat_install_nixos] in which the third key cannot be
    extracted. *)
Example reformat_install_nixos_third_key_fails :
  let o : oracle := fun _ files e =>
    match e with
    | ContextRun line _ =>
        if contains "ssh_host_ed25519_key" line then (exit_status 1, files)
        else (exit_status 0, files)
    | _ => (exit_status 0, files)
    end in
  let run :=
    reformat_install_nixos "/repo" false o "/tmp/tmpq1" "amy" "eth0" (initial_world ∅ []) in
  run.1 = Raise (UnexpectedExit 1)
  /\ List.map fst (history run.2) = take 3 (install_plan "/repo" "amy" "eth0" "/tmp/tmpq1")
  /\ console run.2 = [].
Proof. vm_compute. repeat split. Qed.





(** With no host given, [cleanup_gcroots] addresses one host, the one with
    the empty name. *)
Example cleanup_gcroots_default :
  List.map fst (history (cleanup_gcroots mute (fun _ _ => [0; 0; 1]) "" (initial_world ∅ [])).2)
  = [HostRun "" (Shell "find /nix/var/nix/gcroots/auto -type s -delete") true;
     HostRun "" (Shell "systemctl restart nix-gc") true].
Proof. reflexivity. Qed.


(** ** [run] *)

Lemma host_run_feed (h : DeployHost) (cmd : command) (answers : list CompletedProcess)
    (tr : list entry) (r : result CompletedProcess) :
  feed (Host.run h cmd true) answers = (tr, Some r) ->
  exists p,
    tr = [(HostRun (host h) cmd true, p)]
    /\ (is_raise r = false -> returncode p = 0%Z)
    /\ (is_raise r = true -> returncode p <> 0%Z).
Proof.
  unfold Host.run. cbn [feed]. destruct answers as [|p answers]; [discriminate|].
  unfold Host.checked. cbn [andb].
  destruct (returncode p =? 0)%Z eqn:E; cbn [negb feed]; intros [= <- <-]; exists p;
    cbn [is_raise].
  - apply Z.eqb_eq in E. now repeat split.
  - apply Z.eqb_neq in E. now repeat split.
Qed.

Lemma zip_with_Forall2 {X Y Z} (R : X -> Y -> Prop) (f : X -> Y -> Z) (Q : Z -> Prop)
    (l : list X) (k : list Y) :
  Forall2 R l k -> (forall x y, R x y -> Q (f x y)) -> Forall Q (zip_with f l k).
Proof. induction 1; intros HQ; cbn [zip_with]; constructor; auto. Qed.

Lemma Forall2_Forall_right {X Y} (R : X -> Y -> Prop) (Q : Y -> Prop) (S : X -> Prop)
    (l : list X) (k : list Y) :
  Forall2 R l k -> Forall Q k -> (forall x y, R x y -> Q y -> S x) -> Forall S l.
Proof.
  induction 1 as [|x y l k Hxy Hlk IH]; intros Hk HS; [constructor|].
  inversion Hk; subst. constructor; eauto.
Qed.

(** A checked dispatch that raises names the hosts whose work has raised. *)
Lemma run_function_raise {X} (o : oracle) (sched : list nat)
    (func : DeployHost -> prog X) (hosts : list DeployHost) (w : world)
    (e : exn) (w' : world) :
  run_function o sched func hosts true w = (Raise e, w') ->
  exists failed,
    e = HostFailure (List.map (fun r => host (hr_host r)) failed)
    /\ failed <> []
    /\ failed
       = List.filter (fun r => is_raise (hr_outcome r))
           (zip_with (fun h r => {| hr_host := h; hr_outcome := r |}) hosts
              (dispatch o sched (List.map func hosts) w).1).
Proof.
  unfold run_function.
  destruct (dispatch o sched (List.map func hosts) w) as [outcomes w1]. cbn [fst].
  destruct (List.filter _ _) as [|r failed] eqn:E; [discriminate|].
  intros [= <- <-]. exists (r :: failed). now repeat split.
Qed.

(** X13: [run] sends the command to every host of its group, also when the
    command fails on some of them: the commands it issues are the command on
    the hosts of the group, every host of the group has got it, and when the
    task returns, it has returned zero on every host.  When the task raises
    for the hosts that failed, it names at least one host, and on each host
    it names the command has returned a non-zero status. *)
Theorem run_reaches_every_host (o : oracle) (sched : list nat) (command hosts : string)
    (w : world) :
  let call := fun name => HostRun name (Shell command) true in
  let r := run o sched command hosts w in
  exists H,
    history r.2 = history w ++ H
    /\ Forall (fun en => exists h, In h (run_group hosts) /\ en.1 = call (host h)) H
    /\ Forall
         (fun h => exists p, In (call (host h), p) H
                             /\ (r.1 = Ok tt -> returncode p = 0%Z))
         (run_group hosts)
    /\ (forall names,
           r.1 = Raise (HostFailure names) ->
           names <> []
           /\ Forall (fun n => exists p, In (call n, p) H /\ returncode p <> 0%Z) names).
Proof.
  intros call r. subst r. unfold run, group_run. fold (run_group hosts).
  set (g := run_group hosts). unfold default_check.
  set (func := fun h : DeployHost => Host.run h (Shell command) true).
  destruct (dispatch_runs o (fun e => exists h, In h g /\ e = call (host h)) sched
              (List.map func g) w) as (H & Hh & HP & Hall).
  { apply Forall_map, List.Forall_forall. intros h Hin. cbn [func Host.run calls_in].
    split; [now exists h|]. intros p. unfold Host.checked. now destruct (_ && _). }
  change (List.map func g) with (func <$> g) in Hall. rewrite Forall2_fmap_l in Hall.
  change (func <$> g) with (List.map func g) in Hall.
  pose proof (run_function_history o sched func g true w) as Hr.
  exists H. unfold bind.
  destruct (run_function o sched func g true w) as [[results|e] w1] eqn:E;
    cbn [fst snd ret] in *.
  - apply run_function_ok in E as [Hok _].
    split; [congruence|]. split; [exact HP|]. split; [|discriminate].
    eapply Forall2_Forall_right; [exact Hall|exact Hok|].
    cbn [compose]. intros h r0 (answers & tr & Hf & Hs) Hr0.
    apply host_run_feed in Hf as (p & -> & Hz & _). exists p. split; [|auto].
    apply list_elem_of_In. apply sublist_cons_l in Hs as (k1 & k2 & -> & _).
    apply elem_of_app. right. now left.
  - split; [congruence|]. split; [exact HP|]. split.
    + eapply Forall2_Forall_left; [exact Hall|].
      cbn [compose]. intros h r0 (answers & tr & Hf & Hs).
      apply host_run_feed in Hf as (p & -> & _). exists p. split; [|discriminate].
      apply list_elem_of_In. apply sublist_cons_l in Hs as (k1 & k2 & -> & _).
      apply elem_of_app. right. now left.
    + intros names [= ->].
      apply run_function_raise in E as (failed & [= Hn] & Hne & Hfailed).
      rewrite Hn. split; [now destruct failed|].
      apply Forall_map. rewrite Hfailed.
      apply List.Forall_forall. intros res Hin.
      apply filter_In in Hin as [Hin Hraise].
      revert Hraise. pattern res. revert res Hin. apply List.Forall_forall.
      eapply zip_with_Forall2; [exact Hall|].
      cbn [compose hr_host hr_outcome]. intros h r0 (answers & tr & Hf & Hs) Hraise.
      apply host_run_feed in Hf as (p & -> & _ & Hnz). exists p. split; [|auto].
      apply list_elem_of_In. apply sublist_cons_l in Hs as (k1 & k2 & -> & _).
      apply elem_of_app. right. now left.
Qed.

(** A run of [run] on three hosts of which the second fails: the third gets
    the command all the same. *)
Example run_one_host_fails :
  let o : oracle := fun _ files e =>
    match e with
    | HostRun "b" _ _ => (exit_status 1, files)
    | _ => (exit_status 0, files)
    end in
  let r := run o [2; 0] "uptime" "a,b,c" (initial_world ∅ []) in
  r.1 = Raise (HostFailure ["b"])
  /\ history r.2
     = [(HostRun "c" (Shell "uptime") true, exit_status 0);
        (HostRun "a" (Shell "uptime") true, exit_status 0);
        (HostRun "b" (Shell "uptime") true, exit_status 1)].
Proof. vm_compute. repeat split. Qed.


(** ** The other IPMI tasks *)

Lemma ipmitool_runs (o : oracle) (host cmd : string) (w : world) :
  exists H,
    history (ipmitool o host cmd w).2 = history w ++ H
    /\ ipmitool_run host cmd H (ipmitool o host cmd w).1.
Proof.
  destruct (ipmitool o host cmd w) as [r w'] eqn:E. cbn [fst snd].
  unfold ipmitool, ipmi_password, bind in E.
  rewrite c_run_eq in E. cbn zeta in E.
  pose proof (answer_history o password_call w) as Hh0.
  fold password_call in E. destruct (answer o password_call w) as [p0 w0].
  cbn [fst snd] in *.
  destruct (returncode p0 =? 0)%Z eqn:E0.
  - apply Z.eqb_eq in E0. cbn [ret] in E. rewrite c_run_eq in E. cbn zeta in E.
    fold (ipmitool_call host (stdout p0) cmd) in E.
    pose proof (answer_history o (ipmitool_call host (stdout p0) cmd) w0) as Hh1.
    destruct (answer o (ipmitool_call host (stdout p0) cmd) w0) as [p1 w1].
    cbn [fst snd] in *. injection E as <- <-.
    exists [(password_call, p0); (ipmitool_call host (stdout p0) cmd, p1)].
    split; [rewrite Hh1, Hh0, <- app_assoc; reflexivity|].
    destruct (returncode p1 =? 0)%Z eqn:E1.
    + apply Z.eqb_eq in E1. now constructor.
    + apply Z.eqb_neq in E1. now constructor.
  - apply Z.eqb_neq in E0. injection E as <- <-. exists [(password_call, p0)].
    split; [assumption|now constructor].
Qed.

(** X14: [ipmi_boot] sets the boot device and then cycles the power, each
    with a password that it fetches anew just before.  The power is cycled
    only when the boot device was set with the exit status zero; when the
    password cannot be fetched or the console refuses, the task raises and
    nothing more is sent. *)
Theorem ipmi_boot_cycles_after_bootdev (o : oracle) (host bootdev : string) (w : world) :
  let r := ipmi_boot o host bootdev w in
  exists H1 r1,
    ipmitool_run host ("chassis bootdev " +++ bootdev) H1 r1
    /\ match r1 with
       | Raise e => history r.2 = history w ++ H1 /\ r.1 = Raise e
       | Ok _ =>
           exists H2 r2,
             ipmitool_run host "power cycle" H2 r2
             /\ history r.2 = history w ++ H1 ++ H2
             /\ r.1 = dropped r2
       end.
Proof.
  cbn zeta. destruct (ipmi_boot o host bootdev w) as [r w'] eqn:E. cbn [fst snd].
  unfold ipmi_boot, bind in E.
  destruct (ipmitool_runs o host ("chassis bootdev " +++ bootdev) w) as (H1 & Hh1 & Hr1).
  destruct (ipmitool o host ("chassis bootdev " +++ bootdev) w) as [r1 w1].
  cbn [fst snd] in *. exists H1, r1. split; [assumption|].
  destruct r1 as [p1|e]; [|injection E as <- <-; now split].
  destruct (ipmitool_runs o host "power cycle" w1) as (H2 & Hh2 & Hr2).
  destruct (ipmitool o host "power cycle" w1) as [r2 w2].
  cbn [fst snd] in *. exists H2, r2. split; [assumption|].
  destruct r2 as [p2|e]; injection E as <- <-;
    (split; [rewrite Hh2, Hh1; now rewrite app_assoc|reflexivity]).
Qed.

(** A run of [ipmi_boot_pxe] on a console that refuses the boot device: the
    power is not cycled. *)
Example ipmi_boot_pxe_refused :
  let r := ipmi_boot_pxe refuses_bootdev "amy-mgmt" (initial_world ∅ []) in
  r.1 = Raise (UnexpectedExit 1)
  /\ List.map fst (history r.2)
     = [password_call; ipmitool_call "amy-mgmt" "secret" "chassis bootdev pxe"].
Proof. vm_compute. repeat split. Qed.


(** ** The keys that [generate_ssh_cert] stages *)

Lemma grows_silent {X} (m : M X) : silent m -> grows m.
Proof. intros Hs w. exists []. rewrite app_nil_r. apply Hs. Qed.

Lemma grows_bind {X Y} (m : M X) (k : X -> M Y) :
  grows m -> (forall x, grows (k x)) -> grows (bind m k).
Proof.
  intros Hm Hk w. unfold bind. destruct (Hm w) as [H1 Hh1].
  destruct (m w) as [[x|e] w1]; cbn [snd] in *; [|now exists H1].
  destruct (Hk x w1) as [H2 Hh2]. exists (H1 ++ H2).
  now rewrite Hh2, Hh1, app_assoc.
Qed.

Lemma c_run_warn (o : oracle) (line : string) (w : world) :
  c_run o line true w
  = let a := answer o (ContextRun line true) w in (Ok a.1, a.2).
Proof.
  unfold c_run, exec, bind.
  now destruct (answer o (ContextRun line true) w) as [p w'].
Qed.

Lemma grows_c_run (o : oracle) (line : string) (warn : bool) : grows (c_run o line warn).
Proof.
  intros w. exists [(ContextRun line warn, (answer o (ContextRun line warn) w).1)].
  rewrite <- answer_history. destruct warn; [now rewrite c_run_warn|].
  rewrite c_run_eq. reflexivity.
Qed.

Lemma silent_read_text (dir name : string) : silent (Os.read_text dir name).
Proof. intros w. unfold Os.read_text. now destruct (fs w !! _). Qed.

Ltac grow :=
  first [ apply grows_c_run
        | apply grows_silent, silent_read_text
        | apply grows_silent, silent_ret
        | apply grows_bind; [grow|intros ?; grow] ].

(** X15: the loop of [generate_ssh_cert] asks for the public key of the
    host and looks only at what the command printed, not at how it ended.
    When it printed something, no other command is issued for this key: the
    output is written, as it is, to the staged file of the public key, which
    succeeds exactly when the staging directory exists.  When it printed
    nothing, also because [sops] failed, the next command makes a new
    key. *)
Theorem stage_key_looks_at_output_only (json_dumps : string -> string) (o : oracle)
    (sops_file host tmpdir keytype : string) (w : world) :
  let a := answer o (extract_pub_call sops_file keytype) w in
  let r := stage_key json_dumps o sops_file host tmpdir tt keytype w in
  if String.length (stdout a.1) =? 0
  then
    exists p H,
      history r.2
      = history w ++ (extract_pub_call sops_file keytype, a.1)
                       :: (keygen_call host tmpdir keytype, p) :: H
  else
    history r.2 = history w ++ [(extract_pub_call sops_file keytype, a.1)]
    /\ (r.1 = Ok tt <-> is_Some (fs a.2 !! (tmpdir +++ "/etc/ssh")))
    /\ (r.1 = Ok tt ->
        fs r.2 = <[staged_pubkey tmpdir keytype := stdout a.1]> (fs a.2)).
Proof.
  cbn zeta.
  destruct (stage_key json_dumps o sops_file host tmpdir tt keytype w) as [r w'] eqn:E.
  cbn [fst snd]. unfold stage_key in E. unfold bind at 1 in E.
  rewrite c_run_warn in E. cbn zeta in E. fold (extract_pub_call sops_file keytype) in E.
  pose proof (answer_history o (extract_pub_call sops_file keytype) w) as Hh0.
  destruct (answer o (extract_pub_call sops_file keytype) w) as [p0 w0].
  cbn [fst snd] in *.
  destruct (String.length (stdout p0) =? 0).
  - unfold bind at 1 in E. rewrite c_run_eq in E. cbn zeta in E.
    fold (keygen_call host tmpdir keytype) in E.
    pose proof (answer_history o (keygen_call host tmpdir keytype) w0) as Hh1.
    destruct (answer o (keygen_call host tmpdir keytype) w0) as [p1 w1].
    cbn [fst snd] in *. exists p1.
    destruct (returncode p1 =? 0)%Z.
    + match type of E with
      | ?rest w1 = _ =>
          assert (Hg : grows rest) by grow
      end.
      destruct (Hg w1) as [H Hh]. rewrite E in Hh. cbn [snd] in Hh.
      exists H. rewrite Hh, Hh1, Hh0, <- !app_assoc. reflexivity.
    + injection E as _ <-. exists []. rewrite Hh1, Hh0, <- !app_assoc. reflexivity.
  - unfold Os.write_text in E. fold (staged_pubkey tmpdir keytype) in E.
    destruct (fs w0 !! (tmpdir +++ "/etc/ssh")) as [d|] eqn:Ed;
      injection E as <- <-; cbn [history fs set_fs].
    + split; [assumption|]. split; [|reflexivity].
      split; [now eexists|reflexivity].
    + split; [assumption|]. split; [|discriminate].
      split; [discriminate|]. intros [d Hd]. discriminate Hd.
Qed.

(** A run of [generate_ssh_cert] while the secrets cannot be read: the task
    does not stop at the failure of [sops]; it makes a new key and goes on
    to write it to the secrets. *)
Example generate_ssh_cert_unreadable_secrets :
  let r :=
    generate_ssh_cert "/repo" (fun s => s) (sops_fails "/tmp/tmpq1") "/tmp/tmpq1" "amy"
      (initial_world ∅ []) in
  take 4 (List.map fst (history r.2))
  = [ContextRun "mkdir -p /tmp/tmpq1/etc/ssh" false;
     extract_pub_call "/repo/hosts/amy.yml" "rsa";
     keygen_call "amy" "/tmp/tmpq1" "rsa";
     ContextRun
       ("sops --set '[" +++ dq +++ "ssh_host_rsa_key" +++ dq
          +++ "] PRIVATE' /repo/hosts/amy.yml")
       false].
Proof. vm_compute. reflexivity. Qed.


(** ** The working directory of [get_lldp_neighbors] *)









(** A run of [get_lldp_neighbors] in which the script fails for one host:
    the process is left in the directory [lldp], and the graph is not
    made. *)
Example get_lldp_neighbors_stays_in_lldp :
  let files : gmap string string :=
    <["/repo" := ""]> (<["/repo/docs/hosts" := ""]> ∅) in
  let r := get_lldp_neighbors (script_fails "amy.dse.in.tum.de") [] []
             (initial_world files ["repo"]) in
  r.1 = Raise (HostFailure ["amy.dse.in.tum.de"])
  /\ cwd r.2 = ["lldp"; "hosts"; "docs"; "repo"]
  /\ length (history r.2) = 17.
Proof. vm_compute. repeat split. Qed.


(** ** [document_nixos] and [update_docs] *)

Lemma calls_in_pbind {X Y} (P : event -> Prop) (m : prog X) (f : X -> prog Y) :
  calls_in P m -> (forall x, calls_in P (f x)) -> calls_in P (pbind m f).
Proof.
  intros Hm Hf. induction m as [a|e|e k IH]; cbn [pbind calls_in] in *; auto.
  destruct Hm as [He Hk]. split; auto.
Qed.

Lemma calls_in_for_each {X Y} (P : event -> Prop) (body : Y -> X -> prog Y)
    (l : list X) (acc : Y) :
  (forall acc x, calls_in P (body acc x)) -> calls_in P (Host.for_each l acc body).
Proof.
  intros Hb. revert acc. induction l as [|x l IH]; intros acc; [exact I|].
  cbn [Host.for_each]. apply calls_in_pbind; auto.
Qed.

Lemma calls_in_run (P : event -> Prop) (h : DeployHost) (cmd : command) (check : bool) :
  P (HostRun (host h) cmd check) -> calls_in P (Host.run h cmd check).
Proof.
  intros HP. split; [exact HP|]. intros p. unfold Host.checked. now destruct (_ && _).
Qed.

Lemma calls_in_or_fail {X} (P : event -> Prop) (e : exn) (x : option X) :
  calls_in P (Host.or_fail e x).
Proof. now destruct x. Qed.

(** Every command of [doc_cards] runs on the host it is called for. *)
Lemma doc_cards_calls (names : list string) (h : DeployHost) :
  In (host h) names -> calls_in (on_hosts names) (doc_cards h).
Proof.
  intros Hin.
  assert (Hrun : forall cmd check, calls_in (on_hosts names) (Host.run h cmd check)).
  { intros cmd check. apply calls_in_run. now exists (host h), cmd, check. }
  unfold doc_cards. apply calls_in_pbind.
  - unfold get_slots. apply calls_in_pbind; [apply Hrun|]. intros dmi.
    destruct (negb _); [exact I|].
    apply calls_in_for_each. intros ret slot.
    apply calls_in_pbind.
    + apply calls_in_for_each. intros description line.
      destruct (contains "Bus Address" line); [|exact I].
      apply calls_in_pbind; [apply calls_in_or_fail|]. intros field.
      apply calls_in_pbind; [apply Hrun|]. intros p. exact I.
    + intros description. now destruct (String.length description =? 0).
  - intros ds. apply calls_in_pbind; [apply Hrun|]. intros inxi.
    unfold render_cards. apply calls_in_pbind; [|intros acc; exact I].
    apply calls_in_for_each. intros [result descriptions] line.
    unfold doc_line. destruct (mark_line line) as [shown [|]]; [|exact I].
    destruct (length descriptions =? 0); [exact I|].
    apply calls_in_pbind; [apply calls_in_or_fail|]. now intros [d rest].
Qed.

Lemma doc_host_feed (h : DeployHost) (answers : list CompletedProcess)
    (tr : list entry) (r : result unit) :
  feed (doc_host h) answers = (tr, Some r) ->
  exists p,
    tr = [(host_info_call (host h), p)]
    /\ (is_raise r = false -> returncode p = 0%Z).
Proof.
  unfold doc_host, Host.run_local. cbn [pbind feed].
  destruct answers as [|p answers]; [discriminate|].
  unfold Host.checked, default_check. cbn [andb].
  destruct (returncode p =? 0)%Z eqn:E; cbn [negb pbind feed]; intros [= <- <-];
    exists p; (split; [reflexivity|]); cbn [is_raise]; [|discriminate].
  intros _. now apply Z.eqb_eq.
Qed.

Lemma silent_write_text (dir name text : string) : silent (Os.write_text dir name text).
Proof. intros w. unfold Os.write_text. now destruct (fs w !! dir). Qed.

Lemma silent_join_cards (results : list (HostResult string)) :
  silent (join_cards results).
Proof.
  intros w. unfold join_cards, bind. rewrite map_M_hr_result.
  now destruct (collect _).
Qed.

(** X17: [update_docs] works on the hosts it was given, and on the hosts of
    [HOSTS] when it was given none.  First the script that documents a host
    runs for hosts of this list; the commands after it, which look at the
    slots, all run on machines of this list, and there are such commands
    only when the script has been run for every host of the list and has
    returned zero for each. *)
Theorem update_docs_documents_given_hosts (ROOT : string)
    (substitute : string -> string -> result string) (o : oracle)
    (sched : list nat * list nat) (hosts : string) (w : world) :
  let r := update_docs ROOT substitute o sched hosts w in
  exists H1 H2,
    history r.2 = history w ++ H1 ++ H2
    /\ Forall (fun en => exists name, In name (documented hosts)
                                      /\ en.1 = host_info_call name) H1
    /\ Forall (fun en => on_hosts (documented hosts) en.1) H2
    /\ (H2 <> [] ->
        Forall (fun name => exists p, In (host_info_call name, p) H1
                                      /\ returncode p = 0%Z)
          (documented hosts)).
Proof.
  cbn zeta. unfold update_docs. fold (documented hosts).
  set (names := documented hosts).
  destruct (document_nixos ROOT substitute o sched names w) as [r w'] eqn:E.
  cbn [fst snd]. unfold document_nixos in E. unfold bind at 1 in E.
  destruct (dispatch_runs o
              (fun e => exists name, In name names /\ e = host_info_call name)
              sched.1 (List.map doc_host (List.map root_host names)) w)
    as (H1 & Hh1 & HP1 & Hall1).
  { apply Forall_map, Forall_map, List.Forall_forall. intros name Hin.
    unfold doc_host, Host.run_local. cbn [pbind calls_in]. split; [now exists name|].
    intros p. unfold Host.checked. now destruct (_ && _). }
  pose proof (run_function_history o sched.1 doc_host (List.map root_host names)
                default_check w) as Hr1.
  destruct (run_function o sched.1 doc_host (List.map root_host names) default_check w)
    as [[rs|e1] w1] eqn:E1; cbn [snd] in Hr1.
  2:{ injection E as <- <-. exists H1, []. rewrite app_nil_r.
      split; [congruence|]. split; [assumption|]. split; [constructor|]. now intros []. }
  apply run_function_ok in E1 as [Hok1 _].
  assert (Hevery : Forall (fun name => exists p, In (host_info_call name, p) H1
                                                 /\ returncode p = 0%Z) names).
  { change (List.map doc_host (List.map root_host names))
      with (doc_host <$> (root_host <$> names)) in Hall1.
    rewrite !Forall2_fmap_l in Hall1.
    change (doc_host <$> (root_host <$> names))
      with (List.map doc_host (List.map root_host names)) in Hok1.
    eapply Forall2_Forall_right; [exact Hall1|exact Hok1|].
    cbn [compose]. intros name r0 (answers & tr & Hf & Hs) Hr0.
    apply doc_host_feed in Hf as (p & -> & Hz). exists p. split; [|auto].
    apply list_elem_of_In. apply sublist_cons_l in Hs as (k1 & k2 & -> & _).
    apply elem_of_app. right. now left. }
  unfold bind at 1 in E. unfold document_cards at 1 in E. unfold bind at 1 in E.
  destruct (dispatch_runs o (on_hosts names) sched.2
              (List.map doc_cards (List.map root_host names)) w1)
    as (H2 & Hh2 & HP2 & _).
  { apply Forall_map, Forall_map, List.Forall_forall. intros name Hin.
    now apply doc_cards_calls. }
  pose proof (run_function_history o sched.2 doc_cards (List.map root_host names)
                default_check w1) as Hr2.
  exists H1, H2.
  assert (Hend : history w' = history w ++ H1 ++ H2).
  { destruct (run_function o sched.2 doc_cards (List.map root_host names) default_check w1)
      as [[rs2|e2] w2]; cbn [snd] in Hr2.
    2:{ injection E as <- <-. rewrite Hr2, Hh2, Hr1, Hh1. now rewrite app_assoc. }
    pose proof (silent_join_cards rs2 w2) as Sj.
    destruct (join_cards rs2 w2) as [[cards|e3] w3]; cbn [snd] in Sj.
    2:{ injection E as <- <-. rewrite Sj, Hr2, Hh2, Hr1, Hh1. now rewrite app_assoc. }
    match type of E with
    | ?rest w3 = _ =>
        assert (Hs : silent rest)
          by (apply silent_bind; [apply silent_read_text|]; intros template;
              apply silent_bind; [now intros w0|]; intros content;
              apply silent_write_text)
    end.
    specialize (Hs w3). rewrite E in Hs. cbn [snd] in Hs.
    rewrite Hs, Sj, Hr2, Hh2, Hr1, Hh1. now rewrite app_assoc. }
  split; [exact Hend|]. split; [exact HP1|]. split; [exact HP2|]. intros _. exact Hevery.
Qed.

(** A run of [update_docs] for two hosts when the script fails for the
    second: no slot is looked at and the page is not written. *)
Example update_docs_script_fails :
  let files : gmap string string :=
    <["/repo/docs" := ""]> (<["/repo/docs/expansion_cards.md.template" := "$X"]> ∅) in
  let r := update_docs "/repo" (fun template cards => Ok (template +++ cards))
             (script_fails "b") ([1], []) "a,b" (initial_world files ["repo"]) in
  r.1 = Raise (HostFailure ["b"])
  /\ List.map fst (history r.2) = [host_info_call "b"; host_info_call "a"]
  /\ fs r.2 = files.
Proof. vm_compute. repeat split. Qed.


(** ** [build_local] and [flake_check] *)

Lemma build_local_host_feed (h : DeployHost) (answers : list CompletedProcess)
    (tr : list entry) (r : result unit) :
  feed (build_local_host h) answers = (tr, Some r) ->
  exists p,
    tr = [(build_call (host h), p)]
    /\ (is_raise r = false -> returncode p = 0%Z).
Proof.
  unfold build_local_host, Host.run_local. cbn [pbind feed].
  destruct answers as [|p answers]; [discriminate|].
  unfold Host.checked, default_check. cbn [andb].
  destruct (returncode p =? 0)%Z eqn:E; cbn [negb pbind feed]; intros [= <- <-];
    exists p; (split; [reflexivity|]); cbn [is_raise]; [|discriminate].
  intros _. now apply Z.eqb_eq.
Qed.

(** X18: [build_local] runs nothing on the servers.  Every command it
    issues is the build of a host of its list, run on the local machine;
    every host of the list is built, also when the build of another host
    fails; and when the task returns, every build has returned zero. *)
Theorem build_local_builds_every_host (o : oracle) (sched : list nat) (hosts : string)
    (w : world) :
  let r := build_local o sched hosts w in
  exists H,
    history r.2 = history w ++ H
    /\ Forall (fun en => exists name, In name (split "," hosts) /\ en.1 = build_call name) H
    /\ Forall
         (fun name => exists p, In (build_call name, p) H
                                /\ (r.1 = Ok tt -> returncode p = 0%Z))
         (split "," hosts).
Proof.
  cbn zeta. unfold build_local, get_hosts.
  set (names := split "," hosts).
  destruct (dispatch_runs o (fun e => exists name, In name names /\ e = build_call name)
              sched (List.map build_local_host (List.map root_host names)) w)
    as (H & Hh & HP & Hall).
  { apply Forall_map, Forall_map, List.Forall_forall. intros name Hin.
    unfold build_local_host, Host.run_local. cbn [pbind calls_in].
    split; [now exists name|]. intros p. unfold Host.checked. now destruct (_ && _). }
  change (List.map build_local_host (List.map root_host names))
    with (build_local_host <$> (root_host <$> names)) in Hall.
  rewrite !Forall2_fmap_l in Hall.
  change (build_local_host <$> (root_host <$> names))
    with (List.map build_local_host (List.map root_host names)) in Hall.
  pose proof (run_function_history o sched build_local_host (List.map root_host names)
                default_check w) as Hr.
  exists H. unfold bind.
  destruct (run_function o sched build_local_host (List.map root_host names)
              default_check w) as [[results|e] w1] eqn:E; cbn [fst snd ret] in *.
  - apply run_function_ok in E as [Hok _].
    split; [congruence|]. split; [exact HP|].
    eapply Forall2_Forall_right; [exact Hall|exact Hok|].
    cbn [compose]. intros name r0 (answers & tr & Hf & Hs) Hr0.
    apply build_local_host_feed in Hf as (p & -> & Hz). exists p. split; [|auto].
    apply list_elem_of_In. apply sublist_cons_l in Hs as (k1 & k2 & -> & _).
    apply elem_of_app. right. now left.
  - split; [congruence|]. split; [exact HP|].
    eapply Forall2_Forall_left; [exact Hall|].
    cbn [compose]. intros name r0 (answers & tr & Hf & Hs).
    apply build_local_host_feed in Hf as (p & -> & _). exists p. split; [|discriminate].
    apply list_elem_of_In. apply sublist_cons_l in Hs as (k1 & k2 & -> & _).
    apply elem_of_app. right. now left.
Qed.

(** With no host given, [build_local] builds one configuration, the one
    with the empty name. *)
Example build_local_default :
  List.map fst (history (build_local mute [] "" (initial_world ∅ [])).2)
  = [build_call ""].
Proof. reflexivity. Qed.

(** X19: [flake_check] drops the exit status of the check: it prints the
    command, runs it, and returns without an exception whatever the status
    was. *)
Theorem flake_check_ignores_status (o : oracle) (w : world) :
  let cmd := "nix flake check --option allow-import-from-derivation true" in
  let r := flake_check o w in
  r.1 = Ok tt
  /\ console r.2 = console w ++ ["$ " +++ cmd]
  /\ exists p, history r.2 = history w ++ [(OsSystem cmd, p)].
Proof.
  cbn zeta. unfold flake_check, os_system, exec, bind, print.
  set (w0 := set_console _ w).
  pose proof (answer_history o
                (OsSystem "nix flake check --option allow-import-from-derivation true") w0)
    as Hh.
  pose proof (answer_console o
                (OsSystem "nix flake check --option allow-import-from-derivation true") w0)
    as Hc.
  destruct (answer o _ w0) as [p w1]. cbn [fst snd ret] in *.
  split; [reflexivity|]. split; [exact Hc|]. exists p. exact Hh.
Qed.
